(** * protein-app: sequence extraction, upload, view and annotation

    A shallow embedding of [main.py]: the PDB-to-sequence helper
    [extract_sequence_from_pdb], the three request handlers [upload_pdb],
    [view_protein] and [add_annotation], and the two tables they work on.

    Conventions of the embedding.
    - A Python [str] is a Rocq [string]; a character is a code point below
      256.  Python integers are unbounded, hence [Z].
    - A raised exception is the [Raise] branch of [result]; a handler
      returns its outcome together with the state it leaves behind.
    - The SQLite tables are lists of rows in row-id order, the upload
      directory is a finite map from file names to file contents.
    - The two sources of nondeterminism, [uuid.uuid4()] and
      [datetime.datetime.utcnow()], are arguments of the handlers. *)

From Stdlib Require Import ZArith Lia.
From Stdlib Require Import Ascii.
From Stdlib Require String.
From stdpp Require Import base gmap strings list sorting.

Local Open Scope Z_scope.

(** ** Exceptions and results *)

Inductive exn : Type :=
  | IndexError
  | FileNotFoundError
  | IntegrityError
  | HTTPException (status_code : Z) (detail : string).

Inductive result (A : Type) : Type :=
  | Ok (a : A)
  | Raise (e : exn).
Arguments Ok {A} a.
Arguments Raise {A} e.

(** Sequencing: an exception ends the computation ([x ← r; k]). *)
Global Instance result_ret : MRet result := λ A a, Ok a.
Global Instance result_bind : MBind result := λ A B k r,
  match r with
  | Ok a => k a
  | Raise e => Raise e
  end.

(** The three user-visible errors, as the handlers raise them. *)
Definition InvalidInput : exn := HTTPException 400 "Please upload a .pdb file.".
Definition NotFound : exn := HTTPException 404 "Protein not found".
Definition InvalidRange : exn := HTTPException 400 "Invalid index range".

(** ** The string methods the program calls *)

Module Py.

(** [str.isspace] on code points below 256: TAB..CR, FS..US, SPACE,
    NEL (0x85) and NBSP (0xA0). *)
Definition isspace (c : Ascii.ascii) : bool :=
  let n := Ascii.nat_of_ascii c in
  ((9 <=? n) && (n <=? 13) || (28 <=? n) && (n <=? 32)
   || (n =? 133) || (n =? 160))%nat.

Fixpoint lstrip (s : string) : string :=
  match s with
  | EmptyString => EmptyString
  | String c s' => if isspace c then lstrip s' else s
  end.

Fixpoint rstrip (s : string) : string :=
  match s with
  | EmptyString => EmptyString
  | String c s' =>
      match rstrip s' with
      | EmptyString => if isspace c then EmptyString else String c EmptyString
      | r => String c r
      end
  end.

(** [s.strip()] *)
Definition strip (s : string) : string := rstrip (lstrip s).

(** [s[i:j]] for non-negative literals [i <= j]: clipped to the string,
    never an error. *)
Definition slice (i j : nat) (s : string) : string :=
  String.substring i (j - i) s.

(** [s[i]] for a non-negative literal [i]: IndexError out of range. *)
Definition index (i : nat) (s : string) : result string :=
  match String.get i s with
  | Some c => Ok (String c EmptyString)
  | None => Raise IndexError
  end.

(** [s.startswith(p)] *)
Definition startswith (s p : string) : bool := String.prefix p s.

(** [s.endswith(p)] *)
Fixpoint endswith (s p : string) : bool :=
  String.eqb s p ||
  match s with
  | EmptyString => false
  | String _ s' => endswith s' p
  end.

(** [str.lower] on code points below 256: A..Z and the Latin-1 capitals
    0xC0..0xDE (without the multiplication sign 0xD7) move up by 32. *)
Definition lower_char (c : Ascii.ascii) : Ascii.ascii :=
  let n := Ascii.nat_of_ascii c in
  if ((65 <=? n) && (n <=? 90)
      || (192 <=? n) && (n <=? 222) && negb (n =? 215))%nat
  then Ascii.ascii_of_nat (n + 32) else c.

Fixpoint lower (s : string) : string :=
  match s with
  | EmptyString => EmptyString
  | String c s' => String (lower_char c) (lower s')
  end.

(** [sep.join(l)] with the empty separator *)
Definition join (l : list string) : string := String.concat EmptyString l.

(** Iterating over a file opened in text mode (universal newlines): a
    line ends at LF, CR or CR LF, each of them read as one LF that stays
    at the end of the line; the last line may lack it. *)
Definition LF : Ascii.ascii := "010"%char.
Definition CR : Ascii.ascii := "013"%char.

Fixpoint readlines_aux (s cur : string) (after_cr : bool) : list string :=
  match s with
  | EmptyString => match cur with EmptyString => [] | _ => [cur] end
  | String c s' =>
      if Ascii.eqb c LF then
        if after_cr then readlines_aux s' cur false
        else (cur +:+ String LF EmptyString)
             :: readlines_aux s' EmptyString false
      else if Ascii.eqb c CR then
        (cur +:+ String LF EmptyString)
        :: readlines_aux s' EmptyString true
      else readlines_aux s' (cur +:+ String c EmptyString) false
  end.

Definition readlines (s : string) : list string :=
  readlines_aux s EmptyString false.

End Py.

(** ** Helper: parse sequence from PDB *)

Definition RES3_TO_1 : gmap string string :=
  list_to_map
    [ ("ALA", "A"); ("CYS", "C"); ("ASP", "D"); ("GLU", "E");
      ("PHE", "F"); ("GLY", "G"); ("HIS", "H"); ("ILE", "I");
      ("LYS", "K"); ("LEU", "L"); ("MET", "M"); ("ASN", "N");
      ("PRO", "P"); ("GLN", "Q"); ("ARG", "R"); ("SER", "S");
      ("THR", "T"); ("VAL", "V"); ("TRP", "W"); ("TYR", "Y") ].

(** [RES3_TO_1.get(res_name, "X")] *)
Definition aa_of (res_name : string) : string :=
  default "X" (RES3_TO_1 !! res_name).

(** The body of the [for line in f] loop, with the two accumulators
    [residues_seen] and [sequence] threaded through. *)
Fixpoint extract_loop (lines : list string)
    (residues_seen : gset (string * string)) (sequence : list string)
    : result (list string) :=
  match lines with
  | [] => Ok sequence
  | line :: rest =>
      if negb (Py.startswith line "ATOM") then
        extract_loop rest residues_seen sequence
      else
        let res_name := Py.strip (Py.slice 17 20 line) in
        c ← Py.index 21 line ;
        let chain_id := Py.strip c in
        let res_seq := Py.strip (Py.slice 22 26 line) in
        let key := (chain_id, res_seq) in
        if decide (key ∈ residues_seen) then
          extract_loop rest residues_seen sequence
        else
          extract_loop rest ({[ key ]} ∪ residues_seen)
                       (sequence ++ [aa_of res_name])
  end.

(** What the function does with the text of the opened file. *)
Definition extract_sequence (content : string) : result string :=
  sequence ← extract_loop (Py.readlines content) ∅ [] ;
  Ok (Py.join sequence).

(** [extract_sequence_from_pdb(pdb_path)], the upload directory made
    explicit. *)
Definition extract_sequence_from_pdb (files : gmap string string)
    (pdb_path : string) : result string :=
  match files !! pdb_path with
  | None => Raise FileNotFoundError
  | Some content => extract_sequence content
  end.

(** ** Models *)

Module Protein.
Record t : Type := mk {
  id : Z;
  slug : string;
  filename : string;
  sequence : string;
  created_at : Z
}.
End Protein.

Module Annotation.
Record t : Type := mk {
  id : Z;
  protein_id : Z;
  start_index : Z;
  end_index : Z;
  label : string;
  color : string;
  created_at : Z
}.

(** The dictionary [view_protein] hands to the template for one row. *)
Record data : Type := mk_data {
  d_id : Z;
  d_start_index : Z;
  d_end_index : Z;
  d_label : string;
  d_color : string
}.

Definition to_data (a : t) : data :=
  {| d_id := id a; d_start_index := start_index a;
     d_end_index := end_index a; d_label := label a; d_color := color a |}.
End Annotation.

(** The two tables, rows in row-id order. *)
Record database : Type := {
  proteins : list Protein.t;
  annotations : list Annotation.t
}.

(** The persistent state: the tables and the files of [UPLOAD_DIR]. *)
Record state : Type := {
  db : database;
  uploads : gmap string string
}.

Definition empty_state : state :=
  {| db := {| proteins := []; annotations := [] |}; uploads := ∅ |}.

(** An [Integer] primary key that is not given gets the largest row id in
    use plus one. *)
Definition next_id (ids : list Z) : Z := 1 + foldr Z.max 0 ids.

(** [db.query(Protein).filter(Protein.slug == slug).first()] *)
Definition query_protein (d : database) (slug : string) : option Protein.t :=
  find (λ p, bool_decide (Protein.slug p = slug)) (proteins d).

(** [db.add(protein); db.commit()]: the column [slug] is [unique], a second
    row with a slug in use is refused and nothing is committed. *)
Definition insert_protein (d : database) (slug filename sequence : string)
    (now : Z) : result (Protein.t * database) :=
  if decide (slug ∈ Protein.slug <$> proteins d) then Raise IntegrityError
  else
    let p := Protein.mk (next_id (Protein.id <$> proteins d))
                        slug filename sequence now in
    Ok (p, {| proteins := proteins d ++ [p]; annotations := annotations d |}).

(** [db.add(ann); db.commit()] *)
Definition insert_annotation (d : database) (protein_id start_index end_index : Z)
    (label color : string) (now : Z) : Annotation.t * database :=
  let a := Annotation.mk (next_id (Annotation.id <$> annotations d))
                         protein_id start_index end_index label color now in
  (a, {| proteins := proteins d; annotations := annotations d ++ [a] |}).

Definition created_le (a b : Annotation.t) : Prop :=
  Annotation.created_at a ≤ Annotation.created_at b.

Global Instance created_le_dec a b : Decision (created_le a b).
Proof. unfold created_le. apply _. Defined.

(** [Annotation.protein_id == pid] *)
Definition owned_by (pid : Z) (a : Annotation.t) : Prop :=
  Annotation.protein_id a = pid.

Global Instance owned_by_dec pid a : Decision (owned_by pid a).
Proof. unfold owned_by. apply _. Defined.

(** [db.query(Annotation).filter(Annotation.protein_id == pid)
       .order_by(Annotation.created_at.asc()).all()] *)
Definition query_annotations (d : database) (pid : Z) : list Annotation.t :=
  merge_sort created_le (filter (owned_by pid) (annotations d)).

(** ** Routes *)

Inductive response : Type :=
  | RedirectResponse (url : string) (status_code : Z)
  | ProteinPage (protein : Protein.t) (annotations : list Annotation.data)
                (pdb_url : string)
  | StatusOk.

(** [POST /upload].  [uuid4_hex] is [uuid.uuid4().hex], [now] the clock. *)
Definition upload_pdb (st : state) (filename content uuid4_hex : string)
    (now : Z) : result response * state :=
  if negb (Py.endswith (Py.lower filename) ".pdb") then (Raise InvalidInput, st)
  else
    let slug := Py.slice 0 10 uuid4_hex in
    let save_name := slug +:+ ".pdb" in
    let files := <[save_name := content]> (uploads st) in
    let st1 := {| db := db st; uploads := files |} in
    match extract_sequence_from_pdb files save_name with
    | Raise e => (Raise e, st1)
    | Ok sequence =>
        match insert_protein (db st) slug save_name sequence now with
        | Raise e => (Raise e, st1)
        | Ok (protein, d) =>
            (Ok (RedirectResponse ("/p/" +:+ Protein.slug protein) 303),
             {| db := d; uploads := files |})
        end
    end.

(** [GET /p/{slug}]: reads only.  Of the template context, the protein,
    the annotation dictionaries and [pdb_url] are kept; [share_url] only
    repeats the request. *)
Definition view_protein (st : state) (slug : string) : result response :=
  match query_protein (db st) slug with
  | None => Raise NotFound
  | Some protein =>
      let annotations := query_annotations (db st) (Protein.id protein) in
      let ann_data := Annotation.to_data <$> annotations in
      Ok (ProteinPage protein ann_data ("/uploads/" +:+ Protein.filename protein))
  end.

(** The test of line 218, on the length of the stored sequence. *)
Definition validate_range (sequence_length start_index end_index : Z)
    : result unit :=
  if (start_index <? 0) || (end_index >=? sequence_length)
     || (start_index >? end_index)
  then Raise InvalidRange else Ok ().

(** [POST /p/{slug}/annotations] *)
Definition add_annotation (st : state) (slug : string)
    (start_index end_index : Z) (label color : string) (now : Z)
    : result response * state :=
  match query_protein (db st) slug with
  | None => (Raise NotFound, st)
  | Some protein =>
      let n := Z.of_nat (String.length (Protein.sequence protein)) in
      match validate_range n start_index end_index with
      | Raise e => (Raise e, st)
      | Ok _ =>
          let '(_, d) := insert_annotation (db st) (Protein.id protein)
                           start_index end_index label color now in
          (Ok StatusOk, {| db := d; uploads := uploads st |})
      end
  end.

(** The requests a client can make, and the transition each one causes. *)
Inductive request : Type :=
  | Upload (filename content uuid4_hex : string) (now : Z)
  | View (slug : string)
  | AddAnnotation (slug : string) (start_index end_index : Z)
                  (label color : string) (now : Z).

Definition handle (st : state) (r : request) : result response * state :=
  match r with
  | Upload filename content uuid4_hex now =>
      upload_pdb st filename content uuid4_hex now
  | View slug => (view_protein st slug, st)
  | AddAnnotation slug s e label color now =>
      add_annotation st slug s e label color now
  end.

(** ** Sample data *)

Definition nl : string := String Py.LF EmptyString.

(** One ATOM record in the column layout of the format: residue name in
    columns 17..19, chain in column 21, residue number in columns 22..25
    (counted from 0). *)
Definition atom_line (res chain seq : string) : string :=
  "ATOM      1  N   " +:+ res +:+ " " +:+ chain +:+ seq
  +:+ "      11.104  13.207  10.000" +:+ nl.

Definition three_atoms : string :=
  atom_line "ALA" "A" "   1" +:+ atom_line "ALA" "A" "   1"
  +:+ atom_line "GLY" "A" "   2".

Definition hex0 : string := "0123456789abcdef0123456789abcdef".

(** The state after one upload of [three_atoms]: one protein, slug
    [0123456789], sequence [AG]. *)
Definition one_protein : state :=
  snd (upload_pdb empty_state "1abc.pdb" three_atoms hex0 100).

(** The state after one upload of a file without ATOM records: one
    protein with the empty sequence. *)
Definition blank_protein : state :=
  snd (upload_pdb empty_state "blank.pdb" ("HEADER" +:+ nl) hex0 100).

(** * Range validation *)

Section Validation.

Lemma validate_range_ok_iff n s e :
  validate_range n s e = Ok () ↔ 0 ≤ s ∧ s ≤ e ∧ e < n.
Proof.
  unfold validate_range.
  destruct (s <? 0) eqn:H1, (e >=? n) eqn:H2, (s >? e) eqn:H3; simpl;
    split; try discriminate; try reflexivity; lia.
Qed.

Lemma validate_range_raise_iff n s e :
  validate_range n s e = Raise InvalidRange ↔ s < 0 ∨ e >= n ∨ s > e.
Proof.
  unfold validate_range.
  destruct (s <? 0) eqn:H1, (e >=? n) eqn:H2, (s >? e) eqn:H3; simpl;
    split; try discriminate; try reflexivity; lia.
Qed.

Lemma validate_range_cases n s e :
  validate_range n s e = Ok () ∨ validate_range n s e = Raise InvalidRange.
Proof. unfold validate_range. case (_ || _); auto. Qed.

End Validation.

(** C1.  Range validation succeeds exactly for the integer pairs with
    [0 <= start_index <= end_index < sequence_length]; it fails with
    InvalidRange exactly when [start_index < 0], or
    [end_index >= sequence_length], or [start_index > end_index]; and for
    every pair and every sequence length one of the two happens. *)
Theorem validate_range_exact (sequence_length start_index end_index : Z) :
  (validate_range sequence_length start_index end_index = Ok ()
   ↔ 0 ≤ start_index ∧ start_index ≤ end_index ∧ end_index < sequence_length)
  ∧ (validate_range sequence_length start_index end_index = Raise InvalidRange
     ↔ start_index < 0 ∨ end_index >= sequence_length ∨ start_index > end_index)
  ∧ (validate_range sequence_length start_index end_index = Ok ()
     ∨ validate_range sequence_length start_index end_index = Raise InvalidRange).
Proof.
  split_and!.
  - apply validate_range_ok_iff.
  - apply validate_range_raise_iff.
  - apply validate_range_cases.
Qed.

(** * Annotation creation *)

Section AddAnnotation.

Variables (st : state) (slug : string) (start_index end_index : Z).
Variables (label color : string) (now : Z).

Definition in_range (p : Protein.t) : Prop :=
  0 ≤ start_index ∧ start_index ≤ end_index
  ∧ end_index < Z.of_nat (String.length (Protein.sequence p)).

Lemma add_annotation_not_found :
  query_protein (db st) slug = None →
  add_annotation st slug start_index end_index label color now
  = (Raise NotFound, st).
Proof. intros H. unfold add_annotation. by rewrite H. Qed.

Lemma add_annotation_invalid p :
  query_protein (db st) slug = Some p → ¬ in_range p →
  add_annotation st slug start_index end_index label color now
  = (Raise InvalidRange, st).
Proof.
  intros H Hr. unfold add_annotation. rewrite H.
  destruct (validate_range_cases
              (Z.of_nat (String.length (Protein.sequence p)))
              start_index end_index) as [E|E]; rewrite E; [|done].
  apply validate_range_ok_iff in E. by destruct Hr.
Qed.

Lemma add_annotation_valid p :
  query_protein (db st) slug = Some p → in_range p →
  add_annotation st slug start_index end_index label color now
  = (Ok StatusOk,
     {| db := {| proteins := proteins (db st);
                 annotations := annotations (db st)
                   ++ [Annotation.mk
                         (next_id (Annotation.id <$> annotations (db st)))
                         (Protein.id p) start_index end_index
                         label color now] |};
        uploads := uploads st |}).
Proof.
  intros H Hr. unfold add_annotation. rewrite H.
  apply validate_range_ok_iff in Hr. by rewrite Hr.
Qed.

Lemma add_annotation_ok_inv st' :
  add_annotation st slug start_index end_index label color now
  = (Ok StatusOk, st') →
  ∃ p, query_protein (db st) slug = Some p ∧ in_range p.
Proof.
  unfold add_annotation.
  destruct (query_protein (db st) slug) as [p|]; [|done].
  destruct (validate_range _ _ _) as [[]|] eqn:E; [|done].
  intros _. exists p. split; [done|]. by apply validate_range_ok_iff.
Qed.

End AddAnnotation.

(** The row ids in use never reach [next_id]. *)
Lemma next_id_fresh (ids : list Z) : next_id ids ∉ ids.
Proof.
  assert (∀ x, x ∈ ids → x ≤ foldr Z.max 0 ids) as Hmax.
  { induction ids as [|y ids IH]; intros x Hx; [by apply elem_of_nil in Hx|].
    apply elem_of_cons in Hx as [->|Hx]; simpl; [lia|].
    specialize (IH x Hx). lia. }
  intros Hin. apply Hmax in Hin. unfold next_id in Hin. lia.
Qed.

(** C5.  Annotation creation persists a row only after the range check:
    an unknown slug gives NotFound and a range that is invalid for the
    stored sequence gives InvalidRange, both with the store as it was;
    a success adds exactly one row, with the given fields, the owner's id
    and a fresh id, after the existing ones, and changes nothing else; and
    a success happens only for a known slug and a valid range. *)
Theorem add_annotation_gate (st : state) (slug : string)
    (start_index end_index : Z) (label color : string) (now : Z) :
  let run := add_annotation st slug start_index end_index label color now in
  (query_protein (db st) slug = None → run = (Raise NotFound, st))
  ∧ (∀ p, query_protein (db st) slug = Some p →
          ¬ in_range start_index end_index p →
          run = (Raise InvalidRange, st))
  ∧ (∀ p, query_protein (db st) slug = Some p →
          in_range start_index end_index p →
          ∃ a, run = (Ok StatusOk,
                      {| db := {| proteins := proteins (db st);
                                  annotations := annotations (db st) ++ [a] |};
                         uploads := uploads st |})
               ∧ a = Annotation.mk (Annotation.id a) (Protein.id p)
                       start_index end_index label color now
               ∧ Annotation.id a ∉ Annotation.id <$> annotations (db st))
  ∧ (∀ st', run = (Ok StatusOk, st') →
            ∃ p, query_protein (db st) slug = Some p
                 ∧ in_range start_index end_index p).
Proof.
  cbv zeta. split_and!.
  - apply add_annotation_not_found.
  - apply add_annotation_invalid.
  - intros p Hq Hr. eexists. split; [by apply add_annotation_valid|].
    split; [done|]. apply next_id_fresh.
  - apply add_annotation_ok_inv.
Qed.

(** The three outcomes on the store with one protein of sequence [AG]. *)
Lemma add_annotation_gate_witness :
  add_annotation one_protein "ffffffffff" 0 1 "helix" "red" 200
  = (Raise NotFound, one_protein)
  ∧ add_annotation one_protein "0123456789" 1 2 "helix" "red" 200
    = (Raise InvalidRange, one_protein)
  ∧ ∃ a, add_annotation one_protein "0123456789" 0 1 "helix" "red" 200
         = (Ok StatusOk,
            {| db := {| proteins := proteins (db one_protein);
                        annotations := annotations (db one_protein) ++ [a] |};
               uploads := uploads one_protein |})
         ∧ a = Annotation.mk (Annotation.id a) 1 0 1 "helix" "red" 200
         ∧ Annotation.id a ∉ Annotation.id <$> annotations (db one_protein).
Proof.
  split; [|split].
  - apply (proj1 (add_annotation_gate one_protein "ffffffffff" 0 1
                    "helix" "red" 200)).
    vm_compute. reflexivity.
  - apply (proj1 (proj2 (add_annotation_gate one_protein "0123456789" 1 2
                           "helix" "red" 200))
             (Protein.mk 1 "0123456789" "0123456789.pdb" "AG" 100)).
    + vm_compute. reflexivity.
    + unfold in_range. simpl. lia.
  - apply (proj1 (proj2 (proj2 (add_annotation_gate one_protein "0123456789"
                                  0 1 "helix" "red" 200)))
             (Protein.mk 1 "0123456789" "0123456789.pdb" "AG" 100)).
    + vm_compute. reflexivity.
    + unfold in_range. simpl. lia.
Defined.

(** C10.  Against a protein whose stored sequence is empty, every
    annotation request fails with InvalidRange and leaves the store as it
    was, whatever the two indices are. *)
Theorem add_annotation_empty_sequence (st : state) (slug : string)
    (p : Protein.t) (start_index end_index : Z) (label color : string)
    (now : Z) :
  query_protein (db st) slug = Some p →
  Protein.sequence p = EmptyString →
  add_annotation st slug start_index end_index label color now
  = (Raise InvalidRange, st).
Proof.
  intros Hq Hs. apply (add_annotation_invalid _ _ _ _ _ _ _ p Hq).
  unfold in_range. rewrite Hs. simpl. lia.
Qed.

Lemma add_annotation_empty_sequence_witness :
  add_annotation blank_protein "0123456789" 0 0 "site" "blue" 200
  = (Raise InvalidRange, blank_protein).
Proof.
  apply (add_annotation_empty_sequence blank_protein "0123456789"
           (Protein.mk 1 "0123456789" "0123456789.pdb" EmptyString 100)).
  - vm_compute. reflexivity.
  - reflexivity.
Defined.

(** * Sequence extraction *)

(** ** What the extractor is meant to compute

    The definitions of this section follow the description of the
    extractor, not its loop: the records are the lines tagged ATOM, the
    fields are fixed columns, a record counts when no earlier record has
    its key. *)

Section FirstSeen.

Context {A K : Type} `{Countable K} (key : A → K).

(** The elements of [l] that are the first with their key, in the order
    of [l]. *)
Fixpoint first_seen (l : list A) : list A :=
  match l with
  | [] => []
  | x :: t => x :: filter (λ y, key y ≠ key x) (first_seen t)
  end.

Lemma first_seen_filter_key k l :
  filter (λ y, key y ≠ k) (first_seen l)
  = first_seen (filter (λ y, key y ≠ k) l).
Proof.
  induction l as [|x t IH]; [done|]. simpl.
  destruct (decide (key x = k)) as [E|E].
  - rewrite (filter_cons_False _ x) by (intros Hn; by apply Hn).
    rewrite (filter_cons_False _ x t) by (intros Hn; by apply Hn).
    rewrite <- IH, <- E, list_filter_filter.
    apply list_filter_iff. tauto.
  - rewrite (filter_cons_True _ x) by done.
    rewrite (filter_cons_True _ x t) by done.
    simpl. f_equal. rewrite <- IH, !list_filter_filter.
    apply list_filter_iff. tauto.
Qed.

Lemma first_seen_sublist l : first_seen l `sublist_of` l.
Proof.
  induction l as [|x t IH]; simpl; [done|].
  apply sublist_skip. by etrans; [apply sublist_filter|].
Qed.

Lemma first_seen_keys l k : k ∈ key <$> first_seen l ↔ k ∈ key <$> l.
Proof.
  induction l as [|x t IH]; simpl; [done|].
  rewrite !elem_of_cons, <- IH, !list_elem_of_fmap.
  split.
  - intros [->|(y & -> & Hy)]; [by left|].
    apply list_elem_of_filter in Hy as [_ Hy]. right. by exists y.
  - intros [->|(y & -> & Hy)]; [by left|].
    destruct (decide (key y = key x)) as [E|E]; [by left|].
    right. exists y. split; [done|]. by apply list_elem_of_filter.
Qed.

Lemma first_seen_NoDup l : NoDup (key <$> first_seen l).
Proof.
  induction l as [|x t IH]; simpl; [constructor|].
  apply NoDup_cons. split.
  - intros (y & E & Hy)%list_elem_of_fmap.
    apply list_elem_of_filter in Hy as [Hy _]. by apply Hy.
  - apply (sublist_NoDup _ (key <$> first_seen t)); [exact IH|].
    apply fmap_sublist, sublist_filter.
Qed.

(** An element is kept exactly when it stands at a position before which
    its key does not occur. *)
Lemma first_seen_position l y :
  y ∈ first_seen l
  ↔ ∃ i, l !! i = Some y ∧ key y ∉ key <$> take i l.
Proof.
  induction l as [|x t IH]; simpl.
  - split; [by intros ?%elem_of_nil|by intros (i & ? & _)].
  - rewrite elem_of_cons, list_elem_of_filter, IH. split.
    + intros [->|(Hk & i & Hi & Hn)].
      * exists 0%nat. split; [done|]. simpl. apply not_elem_of_nil.
      * exists (S i). split; [done|]. simpl.
        rewrite not_elem_of_cons. auto.
    + intros ([|i] & Hi & Hn); simpl in *.
      * left. congruence.
      * apply not_elem_of_cons in Hn as [Hk Hn]. right.
        split; [done|]. by exists i.
Qed.

(** The number of kept elements is the number of distinct keys. *)
Lemma first_seen_length l :
  length (first_seen l) = size (list_to_set (key <$> l) : gset K).
Proof.
  rewrite <- (length_fmap key), <- (size_list_to_set (C:=gset K))
    by apply first_seen_NoDup.
  f_equal. apply set_eq. intros k.
  rewrite !elem_of_list_to_set. apply first_seen_keys.
Qed.

End FirstSeen.

(** A record is a line tagged ATOM. *)
Definition is_atom (line : string) : Prop := Py.startswith line "ATOM" = true.

Global Instance is_atom_dec line : Decision (is_atom line).
Proof. unfold is_atom. apply _. Defined.

Definition atom_records (content : string) : list string :=
  filter is_atom (Py.readlines content).

(** The three fixed-width fields of a record. *)
Definition record_name (line : string) : string :=
  Py.strip (Py.slice 17 20 line).
Definition record_key (line : string) : string * string :=
  (Py.strip (Py.slice 21 22 line), Py.strip (Py.slice 22 26 line)).

(** One code for each record that is the first with its (chain, residue
    number) key, in the order of the stream. *)
Definition expected_sequence (content : string) : string :=
  Py.join (aa_of ∘ record_name
           <$> first_seen record_key (atom_records content)).

(** The number of distinct (chain, residue number) keys among the
    records. *)
Definition distinct_keys (content : string) : nat :=
  size (list_to_set (record_key <$> atom_records content)
        : gset (string * string)).

(** A line that reaches the chain column. *)
Definition has_chain_column (line : string) : Prop :=
  (22 ≤ String.length line)%nat.

Global Instance has_chain_column_dec line : Decision (has_chain_column line).
Proof. unfold has_chain_column. apply _. Defined.

(** Every record of the stream reaches the chain column. *)
Definition complete_records (content : string) : Prop :=
  Forall has_chain_column (atom_records content).

Global Instance complete_records_dec content : Decision (complete_records content).
Proof. unfold complete_records. apply _. Defined.

(** The alphabet of a stored sequence: the twenty codes and the marker. *)
Definition alphabet : list ascii :=
  String.list_ascii_of_string "ACDEFGHIKLMNPQRSTVWYX".

Definition over_alphabet (s : string) : Prop :=
  Forall (λ c, c ∈ alphabet) (String.list_ascii_of_string s).

Global Instance over_alphabet_dec s : Decision (over_alphabet s).
Proof. unfold over_alphabet. apply _. Defined.

(** ** Strings *)

Section Strings.

Lemma get_substring i s c :
  String.get i s = Some c → String.substring i 1 s = String c EmptyString.
Proof.
  revert i. induction s as [|a s IH]; intros [|i] Hg; simpl in *;
    try discriminate.
  - injection Hg as ->. by destruct s.
  - by apply IH.
Qed.

Lemma get_is_Some i s :
  (i < String.length s)%nat → is_Some (String.get i s).
Proof.
  revert i. induction s as [|a s IH]; intros [|i] Hl; simpl in *;
    try lia; [by eexists|]. apply IH. lia.
Qed.

Lemma get_None i s :
  (String.length s ≤ i)%nat → String.get i s = None.
Proof.
  revert i. induction s as [|a s IH]; intros [|i] Hl; simpl in *;
    try lia; try done. apply IH. lia.
Qed.

Lemma index_slice i s :
  (i < String.length s)%nat → Py.index i s = Ok (Py.slice i (S i) s).
Proof.
  intros [c Hc]%get_is_Some. unfold Py.index, Py.slice. rewrite Hc.
  replace (S i - i)%nat with 1%nat by lia. by rewrite (get_substring _ _ c).
Qed.

Lemma index_short i s :
  (String.length s ≤ i)%nat → Py.index i s = Raise IndexError.
Proof. intros Hl. unfold Py.index. by rewrite get_None. Qed.

Lemma append_cons a s t : String a s +:+ t = String a (s +:+ t).
Proof. reflexivity. Qed.

Lemma length_append s t :
  String.length (s +:+ t) = (String.length s + String.length t)%nat.
Proof.
  induction s as [|a s IH]; [done|]. rewrite append_cons. simpl. by rewrite IH.
Qed.

Lemma list_ascii_append s t :
  String.list_ascii_of_string (s +:+ t)
  = String.list_ascii_of_string s ++ String.list_ascii_of_string t.
Proof.
  induction s as [|a s IH]; [done|]. rewrite append_cons. simpl. by rewrite IH.
Qed.

Lemma append_empty_r s : s +:+ EmptyString = s.
Proof. induction s as [|a s IH]; [done|]. by rewrite append_cons, IH. Qed.

Lemma join_cons s l : Py.join (s :: l) = s +:+ Py.join l.
Proof.
  unfold Py.join. simpl. destruct l; [by rewrite append_empty_r|done].
Qed.

(** Joining strings of one character each. *)
Lemma join_length l :
  Forall (λ s, String.length s = 1%nat) l →
  String.length (Py.join l) = length l.
Proof.
  induction 1 as [|s l Hs Hl IH]; [done|].
  rewrite join_cons, length_append, Hs, IH. done.
Qed.

Lemma join_over_alphabet l :
  Forall over_alphabet l → over_alphabet (Py.join l).
Proof.
  induction 1 as [|s l Hs Hl IH]; [by apply Forall_nil|].
  rewrite join_cons. unfold over_alphabet.
  rewrite list_ascii_append. by apply Forall_app.
Qed.

End Strings.

(** ** The residue table *)

Section Table.

(** The values [RES3_TO_1.get] can give. *)
Definition one_letter_codes : list string :=
  [ "A"; "C"; "D"; "E"; "F"; "G"; "H"; "I"; "K"; "L";
    "M"; "N"; "P"; "Q"; "R"; "S"; "T"; "V"; "W"; "Y"; "X" ].

Lemma RES3_TO_1_size : size RES3_TO_1 = 20%nat.
Proof. reflexivity. Qed.

Lemma aa_of_codes res_name : aa_of res_name ∈ one_letter_codes.
Proof.
  unfold aa_of. destruct (RES3_TO_1 !! res_name) as [v|] eqn:E; simpl.
  - apply elem_of_list_to_map_2, (list_elem_of_fmap_2 snd) in E.
    simpl in E. unfold one_letter_codes.
    repeat (apply elem_of_cons in E as [->|E];
            [repeat first [apply list_elem_of_here | apply list_elem_of_further]|]).
    by apply elem_of_nil in E.
  - unfold one_letter_codes.
    repeat first [apply list_elem_of_here | apply list_elem_of_further].
Qed.

Lemma aa_of_unmapped res_name :
  RES3_TO_1 !! res_name = None → aa_of res_name = "X".
Proof. intros H. unfold aa_of. by rewrite H. Qed.

Lemma aa_of_length res_name : String.length (aa_of res_name) = 1%nat.
Proof.
  assert (Forall (λ s, String.length s = 1%nat) one_letter_codes) as H
    by (apply (bool_decide_unpack _); by vm_compute).
  rewrite Forall_forall in H. apply H, aa_of_codes.
Qed.

Lemma aa_of_over_alphabet res_name : over_alphabet (aa_of res_name).
Proof.
  assert (Forall over_alphabet one_letter_codes) as H
    by (apply (bool_decide_unpack _); by vm_compute).
  rewrite Forall_forall in H. apply H, aa_of_codes.
Qed.

End Table.

(** ** The loop *)

Section Loop.

Implicit Types (lines : list string) (seen : gset (string * string)).
Implicit Types (seq : list string).

(** On records that reach the chain column the loop appends, to what it
    has, the codes of the records that are first with a key not seen. *)
Lemma extract_loop_complete lines seen seq :
  Forall has_chain_column (filter is_atom lines) →
  extract_loop lines seen seq
  = Ok (seq ++ (aa_of ∘ record_name
                <$> first_seen record_key
                      (filter (λ l, record_key l ∉ seen)
                              (filter is_atom lines)))).
Proof.
  revert seen seq. induction lines as [|line rest IH]; intros seen seq Hc.
  { simpl. by rewrite app_nil_r. }
  simpl. destruct (Py.startswith line "ATOM") eqn:Ha; simpl.
  - rewrite (filter_cons_True is_atom) in Hc |- * by done.
    apply Forall_cons in Hc as [Hl Hc].
    rewrite (index_slice 21 line) by (unfold has_chain_column in Hl; lia).
    simpl. fold (record_key line).
    destruct (decide (record_key line ∈ seen)) as [Hs|Hs].
    + rewrite filter_cons_False by (intros Hn; by apply Hn).
      by apply IH.
    + rewrite (filter_cons_True _ line) by done. simpl.
      rewrite first_seen_filter_key, list_filter_filter, IH by done.
      rewrite <- (assoc_L (++)). simpl. do 5 f_equal.
      apply list_filter_iff. intros l.
      by rewrite not_elem_of_union, not_elem_of_singleton.
  - rewrite (filter_cons_False is_atom) in Hc |- *
      by (unfold is_atom; congruence).
    by apply IH.
Qed.

(** A record that stops before the chain column ends the loop with
    IndexError, wherever it stands. *)
Lemma extract_loop_truncated lines seen seq :
  Exists (λ l, is_atom l ∧ ¬ has_chain_column l) lines →
  extract_loop lines seen seq = Raise IndexError.
Proof.
  intros Hex. revert seen seq.
  induction Hex as [line rest [Ha Hl]|line rest Hex IH]; intros seen seq.
  - simpl. rewrite Ha. simpl.
    rewrite index_short by (unfold has_chain_column in Hl; lia). done.
  - simpl. destruct (Py.startswith line "ATOM"); simpl; [|apply IH].
    destruct (Py.index 21 line) as [c|e] eqn:E; simpl.
    + case_decide; apply IH.
    + unfold Py.index in E. destruct (String.get 21 line); congruence.
Qed.

(** Whatever the loop returns, it has only added codes of the table. *)
Lemma extract_loop_codes lines seen seq out :
  extract_loop lines seen seq = Ok out →
  Forall (λ aa, aa ∈ one_letter_codes) seq →
  Forall (λ aa, aa ∈ one_letter_codes) out.
Proof.
  revert seen seq. induction lines as [|line rest IH]; intros seen seq; simpl.
  { by intros [= ->]. }
  destruct (Py.startswith line "ATOM"); simpl; [|apply IH].
  destruct (Py.index 21 line) as [c|e]; simpl; [|done].
  case_decide; [apply IH|].
  intros Hout Hseq. apply (IH _ _ Hout).
  apply Forall_app. split; [done|].
  apply Forall_cons. split; [apply aa_of_codes|by apply Forall_nil].
Qed.

End Loop.

(** ** The extractor on a whole stream *)

Section Extract.

Lemma filter_all {A} (P : A → Prop) `{∀ x, Decision (P x)} (l : list A) :
  Forall P l → filter P l = l.
Proof.
  induction 1 as [|x l Hx Hl IH]; [done|].
  by rewrite filter_cons_True, IH.
Qed.

Lemma extract_sequence_complete content :
  complete_records content →
  extract_sequence content = Ok (expected_sequence content).
Proof.
  intros Hc. unfold extract_sequence, expected_sequence.
  rewrite (extract_loop_complete _ ∅ []) by exact Hc. simpl.
  rewrite filter_all; [done|].
  apply Forall_forall. intros l _. apply not_elem_of_empty.
Qed.

Lemma extract_sequence_truncated content :
  ¬ complete_records content →
  extract_sequence content = Raise IndexError.
Proof.
  intros Hc. unfold extract_sequence.
  rewrite extract_loop_truncated; [done|].
  apply not_Forall_Exists in Hc; [|apply _].
  apply Exists_exists in Hc as (l & Hl & Hs).
  apply list_elem_of_filter in Hl as [Ha Hl].
  apply Exists_exists. by exists l.
Qed.

(** The extractor returns exactly on the streams with complete records. *)
Lemma extract_sequence_returns content :
  (∃ s, extract_sequence content = Ok s) ↔ complete_records content.
Proof.
  split.
  - intros [s Hs]. destruct (decide (complete_records content)) as [|Hn];
      [done|]. rewrite extract_sequence_truncated in Hs by done. done.
  - intros Hc. eexists. by apply extract_sequence_complete.
Qed.

Lemma extract_sequence_no_records content :
  atom_records content = [] → extract_sequence content = Ok EmptyString.
Proof.
  intros Hn. rewrite extract_sequence_complete.
  - unfold expected_sequence. by rewrite Hn.
  - unfold complete_records. rewrite Hn. by apply Forall_nil.
Qed.

Lemma expected_sequence_length content :
  String.length (expected_sequence content) = distinct_keys content.
Proof.
  unfold expected_sequence, distinct_keys.
  rewrite join_length, length_fmap; [apply first_seen_length|].
  apply Forall_fmap, Forall_forall. intros l _. apply aa_of_length.
Qed.

Lemma extract_sequence_over_alphabet content s :
  extract_sequence content = Ok s → over_alphabet s.
Proof.
  unfold extract_sequence.
  destruct (extract_loop _ _ _) as [out|e] eqn:E; simpl; [|done].
  intros [= <-]. apply join_over_alphabet.
  apply extract_loop_codes in E; [|by apply Forall_nil].
  eapply Forall_impl; [exact E|]. simpl. intros aa Haa.
  assert (Forall over_alphabet one_letter_codes) as H
    by (apply (bool_decide_unpack _); by vm_compute).
  rewrite Forall_forall in H. by apply H.
Qed.

End Extract.

(** A stream that is cut off in the middle of its second record. *)
Definition cut_off : string :=
  atom_line "ALA" "A" "   1" +:+ "ATOM      2  CA  GLY".

(** C2 (as amended).  On every stream whose ATOM lines all reach the chain
    column (at least 22 characters), the extractor looks at the ATOM lines
    only and returns one code for each record that is the first with its
    (chain, residue number) key, in the order of the stream, a later
    record with a key already seen adding nothing; the table has twenty
    entries and a residue name outside it gives the code X; the three
    records ALA A 1, ALA A 1, GLY A 2 give AG and the one record XYZ A 1
    gives X. *)
Theorem extract_sequence_first_seen :
  (∀ content, complete_records content →
     extract_sequence content = Ok (expected_sequence content))
  ∧ size RES3_TO_1 = 20%nat
  ∧ (∀ res_name, RES3_TO_1 !! res_name = None → aa_of res_name = "X")
  ∧ extract_sequence three_atoms = Ok "AG"
  ∧ extract_sequence (atom_line "XYZ" "A" "   1") = Ok "X".
Proof.
  split_and!.
  - apply extract_sequence_complete.
  - apply RES3_TO_1_size.
  - apply aa_of_unmapped.
  - by vm_compute.
  - by vm_compute.
Qed.

Lemma extract_sequence_first_seen_witness :
  extract_sequence three_atoms = Ok (expected_sequence three_atoms)
  ∧ aa_of "XYZ" = "X".
Proof.
  split.
  - apply (proj1 extract_sequence_first_seen three_atoms).
    apply (bool_decide_unpack _). vm_compute. exact I.
  - apply (proj1 (proj2 (proj2 extract_sequence_first_seen)) "XYZ").
    vm_compute. reflexivity.
Defined.

(** The claim without the restriction fails: the one-line stream [ATOM]
    has one record, for which one code is expected, and the extractor
    raises IndexError instead of returning. *)
Lemma extract_sequence_bare_tag :
  atom_records "ATOM" = ["ATOM"]
  ∧ expected_sequence "ATOM" = "X"
  ∧ extract_sequence "ATOM" = Raise IndexError
  ∧ extract_sequence "ATOM" ≠ Ok (expected_sequence "ATOM").
Proof. split_and!; by vm_compute. Qed.

(** C3.  The extractor does not return on every stream: an ATOM line that
    stops before the chain column, with or without its line end, makes it
    raise IndexError, also after records that are complete. *)
Theorem extract_sequence_raises :
  extract_sequence "ATOM" = Raise IndexError
  ∧ extract_sequence ("ATOM" +:+ nl) = Raise IndexError
  ∧ extract_sequence ("ATOM      1  N   ALA" +:+ nl) = Raise IndexError
  ∧ extract_sequence cut_off = Raise IndexError.
Proof. split_and!; by vm_compute. Qed.

(** C4 (as amended).  On every stream whose ATOM lines all reach the chain
    column, the extractor returns a string whose length is the number of
    distinct (chain, residue number) keys among the ATOM lines. *)
Theorem extract_sequence_length (content : string) :
  complete_records content →
  ∃ s, extract_sequence content = Ok s
       ∧ String.length s = distinct_keys content.
Proof.
  intros Hc. exists (expected_sequence content).
  split; [by apply extract_sequence_complete|].
  apply expected_sequence_length.
Qed.

Lemma extract_sequence_length_witness :
  ∃ s, extract_sequence three_atoms = Ok s
       ∧ String.length s = distinct_keys three_atoms.
Proof.
  apply (extract_sequence_length three_atoms).
  apply (bool_decide_unpack _). vm_compute. exact I.
Defined.

(** The claim without the restriction fails: the stream [cut_off] has two
    ATOM lines with two distinct keys, and there is no extracted string. *)
Lemma extract_sequence_length_cut_off :
  distinct_keys cut_off = 2%nat
  ∧ ¬ ∃ s, extract_sequence cut_off = Ok s
           ∧ String.length s = distinct_keys cut_off.
Proof.
  split; [by vm_compute|].
  intros (s & Hs & _). by vm_compute in Hs.
Qed.

(** * The alphabet of stored sequences *)

Definition sequences_ok (st : state) : Prop :=
  Forall (λ p, over_alphabet (Protein.sequence p)) (proteins (db st)).

Section Invariant.

Lemma extract_sequence_from_pdb_saved files save_name content :
  extract_sequence_from_pdb (<[save_name := content]> files) save_name
  = extract_sequence content.
Proof. unfold extract_sequence_from_pdb. by rewrite lookup_insert_eq. Qed.

Lemma upload_pdb_sequences_ok st filename content uuid4_hex now :
  sequences_ok st →
  sequences_ok (snd (upload_pdb st filename content uuid4_hex now)).
Proof.
  intros Hst. unfold upload_pdb.
  destruct (Py.endswith _ _); simpl; [|done].
  rewrite extract_sequence_from_pdb_saved.
  destruct (extract_sequence content) as [s|e] eqn:E; [|done].
  unfold insert_protein. case_decide; [done|]. simpl.
  unfold sequences_ok. simpl. apply Forall_app. split; [done|].
  apply Forall_cons. split; [|by apply Forall_nil]. simpl.
  by apply (extract_sequence_over_alphabet content).
Qed.

Lemma add_annotation_proteins st slug s e label color now :
  proteins (db (snd (add_annotation st slug s e label color now)))
  = proteins (db st).
Proof.
  unfold add_annotation. destruct (query_protein _ _); [|done].
  by destruct (validate_range _ _ _).
Qed.

Lemma handle_sequences_ok st r :
  sequences_ok st → sequences_ok (snd (handle st r)).
Proof.
  destruct r as [filename content uuid4_hex now|slug|slug s e label color now];
    simpl.
  - apply upload_pdb_sequences_ok.
  - done.
  - unfold sequences_ok. by rewrite add_annotation_proteins.
Qed.

End Invariant.

(** The states a sequence of requests leads to from the empty store. *)
Inductive reachable : state → Prop :=
  | reachable_empty : reachable empty_state
  | reachable_step st r : reachable st → reachable (snd (handle st r)).

(** C6.  Every string the extractor returns is over the twenty one-letter
    codes and the marker X; every request keeps the stored sequences over
    that alphabet, so that every protein of every state the requests can
    lead to has such a sequence. *)
Theorem sequences_over_alphabet :
  (∀ content s, extract_sequence content = Ok s → over_alphabet s)
  ∧ (∀ st r, sequences_ok st → sequences_ok (snd (handle st r)))
  ∧ (∀ st p, reachable st → p ∈ proteins (db st) →
             over_alphabet (Protein.sequence p)).
Proof.
  split_and!.
  - apply extract_sequence_over_alphabet.
  - apply handle_sequences_ok.
  - intros st p Hr. revert p.
    assert (sequences_ok st) as Hst.
    { induction Hr; [by apply Forall_nil|by apply handle_sequences_ok]. }
    intros p Hp. unfold sequences_ok in Hst.
    rewrite Forall_forall in Hst. by apply Hst.
Qed.

Lemma sequences_over_alphabet_witness :
  over_alphabet "AG"
  ∧ sequences_ok
      (snd (handle one_protein
              (Upload "2xyz.pdb" (atom_line "XYZ" "A" "   1")
                      "aaaaaaaaaabbbbbbbbbbccccccccccdd" 150))).
Proof.
  split.
  - apply (proj1 sequences_over_alphabet three_atoms "AG").
    vm_compute. reflexivity.
  - apply (proj1 (proj2 sequences_over_alphabet) one_protein).
    apply (bool_decide_unpack _). vm_compute. exact I.
Defined.

(** * Upload *)

Section Upload.

(** [s] ends with [p]. *)
Definition has_suffix (s p : string) : Prop := ∃ stem, s = stem +:+ p.

Lemma endswith_nil p : Py.endswith EmptyString p = String.eqb EmptyString p.
Proof. simpl. apply orb_false_r. Qed.

Lemma endswith_cons a s p :
  Py.endswith (String a s) p
  = String.eqb (String a s) p || Py.endswith s p.
Proof. reflexivity. Qed.

Lemma endswith_spec s p : Py.endswith s p = true ↔ has_suffix s p.
Proof.
  unfold has_suffix. induction s as [|a s IH].
  - rewrite endswith_nil, String.eqb_eq. split.
    + intros <-. by exists EmptyString.
    + intros ([|b stem] & E); [done|].
      rewrite append_cons in E. discriminate.
  - rewrite endswith_cons, orb_true_iff, String.eqb_eq, IH. split.
    + intros [<-|(stem & ->)]; [by exists EmptyString|].
      by exists (String a stem).
    + intros ([|b stem] & E); [by left|].
      rewrite append_cons in E. injection E as -> ->. right. by exists stem.
Qed.

Lemma endswith_false s p : Py.endswith s p = false ↔ ¬ has_suffix s p.
Proof.
  rewrite <- endswith_spec. destruct (Py.endswith s p); split;
    intros; congruence.
Qed.

Variables (st : state) (filename content uuid4_hex : string) (now : Z).

Let slug := Py.slice 0 10 uuid4_hex.

Lemma upload_pdb_rejected :
  ¬ has_suffix (Py.lower filename) ".pdb" →
  upload_pdb st filename content uuid4_hex now = (Raise InvalidInput, st).
Proof.
  intros H%endswith_false. unfold upload_pdb. by rewrite H.
Qed.

(** Past the test on the name, the file is written before anything else
    happens, and stays whatever happens next. *)
Lemma upload_pdb_accepted :
  has_suffix (Py.lower filename) ".pdb" →
  fst (upload_pdb st filename content uuid4_hex now) ≠ Raise InvalidInput
  ∧ uploads (snd (upload_pdb st filename content uuid4_hex now))
    = <[slug +:+ ".pdb" := content]> (uploads st).
Proof.
  intros H%endswith_spec. unfold upload_pdb. rewrite H. simpl.
  rewrite extract_sequence_from_pdb_saved.
  destruct (extract_sequence content) as [s|e] eqn:E; simpl.
  - unfold insert_protein. by case_decide.
  - split; [|done]. intros [= ->].
    apply (f_equal (λ r, match r with
                         | Raise (HTTPException _ _) => true
                         | _ => false end)) in E.
    destruct (decide (complete_records content)) as [Hc|Hc].
    + by rewrite extract_sequence_complete in E.
    + by rewrite extract_sequence_truncated in E.
Qed.

(** A slug in use: the file of that slug is replaced, then the insert is
    refused (or the extractor has raised before), and the tables stay. *)
Lemma upload_pdb_collision :
  has_suffix (Py.lower filename) ".pdb" →
  slug ∈ Protein.slug <$> proteins (db st) →
  ∃ e, upload_pdb st filename content uuid4_hex now
       = (Raise e,
          {| db := db st;
             uploads := <[slug +:+ ".pdb" := content]> (uploads st) |})
       ∧ (complete_records content → e = IntegrityError).
Proof.
  intros H%endswith_spec Hin. unfold upload_pdb. rewrite H. simpl.
  rewrite extract_sequence_from_pdb_saved.
  destruct (decide (complete_records content)) as [Hc|Hc].
  - rewrite extract_sequence_complete by done.
    unfold insert_protein. rewrite decide_True by done. by eexists.
  - rewrite extract_sequence_truncated by done. by eexists.
Qed.

End Upload.

(** C7 (as amended).  The upload is refused with the invalid-input error
    exactly when the file name, put in lower case, does not end with
    [.pdb]; a refused upload leaves the tables and the files as they were;
    an upload that is not refused stores the file under the name made from
    the slug. *)
Theorem upload_pdb_extension (st : state)
    (filename content uuid4_hex : string) (now : Z) :
  let run := upload_pdb st filename content uuid4_hex now in
  (fst run = Raise InvalidInput ↔ ¬ has_suffix (Py.lower filename) ".pdb")
  ∧ (fst run = Raise InvalidInput → snd run = st)
  ∧ (has_suffix (Py.lower filename) ".pdb" →
     uploads (snd run) !! (Py.slice 0 10 uuid4_hex +:+ ".pdb") = Some content).
Proof.
  cbv zeta.
  assert (fst (upload_pdb st filename content uuid4_hex now)
          = Raise InvalidInput
          ↔ ¬ has_suffix (Py.lower filename) ".pdb") as Hiff.
  { split.
    - intros Hr Hs.
      by destruct (upload_pdb_accepted st filename content uuid4_hex now Hs).
    - intros Hs. by rewrite upload_pdb_rejected. }
  split_and!; [done| |].
  - intros Hs%Hiff. by rewrite upload_pdb_rejected.
  - intros Hs.
    destruct (upload_pdb_accepted st filename content uuid4_hex now Hs)
      as [_ ->].
    apply lookup_insert_eq.
Qed.

Lemma upload_pdb_extension_witness :
  snd (upload_pdb one_protein "notes.txt" three_atoms hex0 150) = one_protein
  ∧ uploads (snd (upload_pdb empty_state "1abc.pdb" three_atoms hex0 100))
    !! "0123456789.pdb" = Some three_atoms.
Proof.
  split.
  - apply (proj1 (proj2 (upload_pdb_extension one_protein "notes.txt"
                           three_atoms hex0 150))).
    vm_compute. reflexivity.
  - apply (proj2 (proj2 (upload_pdb_extension empty_state "1abc.pdb"
                           three_atoms hex0 100))).
    apply endswith_spec. vm_compute. reflexivity.
Defined.

(** The claim as written fails: the name [1ABC.PDB] does not end with
    [.pdb], and the upload is taken: it redirects to the new record, which
    is in the table, and the file is stored. *)
Lemma upload_pdb_upper_case :
  ¬ has_suffix "1ABC.PDB" ".pdb"
  ∧ upload_pdb empty_state "1ABC.PDB" three_atoms hex0 100
    = (Ok (RedirectResponse "/p/0123456789" 303),
       {| db := {| proteins := [Protein.mk 1 "0123456789" "0123456789.pdb"
                                           "AG" 100];
                   annotations := [] |};
          uploads := {[ "0123456789.pdb" := three_atoms ]} |}).
Proof.
  split; [by apply endswith_false|]. by vm_compute.
Qed.

(** The second file of a colliding upload. *)
Definition other_file : string := atom_line "GLY" "B" "   7".

(** C8.  An upload whose slug is the slug of a stored protein does raise
    a creation error and leaves the protein record alone, but by then it
    has replaced the stored file of that protein by the new one. *)
Theorem upload_pdb_collision_overwrites :
  uploads one_protein !! "0123456789.pdb" = Some three_atoms
  ∧ fst (upload_pdb one_protein "2xyz.pdb" other_file hex0 150)
    = Raise IntegrityError
  ∧ db (snd (upload_pdb one_protein "2xyz.pdb" other_file hex0 150))
    = db one_protein
  ∧ uploads (snd (upload_pdb one_protein "2xyz.pdb" other_file hex0 150))
    !! "0123456789.pdb" = Some other_file
  ∧ other_file ≠ three_atoms.
Proof. split_and!; by vm_compute. Qed.

(** * View *)

Section View.

Global Instance created_le_total : Total created_le.
Proof. intros a b. unfold created_le. lia. Qed.

Global Instance created_le_trans : Transitive created_le.
Proof. intros a b c. unfold created_le. lia. Qed.

Lemma query_annotations_sorted d pid :
  StronglySorted created_le (query_annotations d pid).
Proof. apply StronglySorted_merge_sort; apply _. Qed.

Lemma query_annotations_perm d pid :
  query_annotations d pid ≡ₚ filter (owned_by pid) (annotations d).
Proof. apply merge_sort_Permutation. Qed.

(** In a sorted list, a row that is later than all the others is the
    last one. *)
Lemma sorted_latest_last (rows old : list Annotation.t) a :
  StronglySorted created_le rows →
  rows ≡ₚ old ++ [a] →
  Forall (λ b, Annotation.created_at b < Annotation.created_at a) old →
  ∃ before, rows = before ++ [a] ∧ before ≡ₚ old.
Proof.
  intros Hs Hp Hold.
  assert (a ∈ rows) as Ha.
  { rewrite Hp. apply elem_of_app. right. apply list_elem_of_here. }
  apply list_elem_of_split in Ha as (r1 & r2 & ->).
  assert (r1 ++ r2 ≡ₚ old) as Hp'.
  { apply (Permutation_cons_inv (a := a)).
    rewrite Permutation_middle, Hp.
    by rewrite <- Permutation_cons_append. }
  destruct r2 as [|b r2].
  - exists r1. by rewrite app_nil_r in Hp'.
  - exfalso. apply StronglySorted_app in Hs as (_ & _ & Hs).
    apply StronglySorted_cons in Hs as [Hle _].
    apply Forall_cons in Hle as [Hle _].
    assert (b ∈ old) as Hb.
    { rewrite <- Hp'. apply elem_of_app. right. apply list_elem_of_here. }
    rewrite Forall_forall in Hold. apply Hold in Hb.
    unfold created_le in Hle. lia.
Qed.

Lemma query_annotations_latest d pid a :
  Annotation.protein_id a = pid →
  Forall (λ b, Annotation.protein_id b = pid →
               Annotation.created_at b < Annotation.created_at a)
         (annotations d) →
  ∃ before,
    query_annotations
      {| proteins := proteins d; annotations := annotations d ++ [a] |} pid
    = before ++ [a]
    ∧ before ≡ₚ query_annotations d pid.
Proof.
  intros Hpid Hlate.
  destruct (sorted_latest_last
              (query_annotations
                 {| proteins := proteins d;
                    annotations := annotations d ++ [a] |} pid)
              (filter (owned_by pid) (annotations d)) a)
    as (before & E & Hp).
  - apply query_annotations_sorted.
  - rewrite query_annotations_perm. simpl.
    by rewrite filter_app, filter_cons_True.
  - apply Forall_forall. intros b [Hb Hin]%list_elem_of_filter.
    rewrite Forall_forall in Hlate. by apply Hlate.
  - exists before. split; [done|]. by rewrite query_annotations_perm.
Qed.

End View.

(** C9.  For a known slug the view returns the page of the protein with
    its own annotations, each once, in ascending order of creation time;
    and if an annotation is then added to it at a time later than the
    creation times of its annotations, the next view lists that annotation
    after all of them. *)
Theorem view_protein_sorted (st : state) (slug : string) (p : Protein.t) :
  query_protein (db st) slug = Some p →
  (∃ rows,
     view_protein st slug
     = Ok (ProteinPage p (Annotation.to_data <$> rows)
                       ("/uploads/" +:+ Protein.filename p))
     ∧ StronglySorted created_le rows
     ∧ rows ≡ₚ filter (owned_by (Protein.id p)) (annotations (db st)))
  ∧ (∀ start_index end_index label color now st',
       add_annotation st slug start_index end_index label color now
       = (Ok StatusOk, st') →
       Forall (λ b, Annotation.protein_id b = Protein.id p →
                    Annotation.created_at b < now)
              (annotations (db st)) →
       ∃ before a,
         view_protein st' slug
         = Ok (ProteinPage p (Annotation.to_data <$> (before ++ [a]))
                           ("/uploads/" +:+ Protein.filename p))
         ∧ before ≡ₚ query_annotations (db st) (Protein.id p)
         ∧ Annotation.to_data a
           = Annotation.mk_data (Annotation.id a) start_index end_index
                                label color
         ∧ Annotation.created_at a = now).
Proof.
  intros Hq. split.
  - exists (query_annotations (db st) (Protein.id p)).
    unfold view_protein. rewrite Hq.
    auto using query_annotations_sorted, query_annotations_perm.
  - intros s e label color now st' Hadd Hlate.
    destruct (add_annotation_ok_inv _ _ _ _ _ _ _ _ Hadd) as (p' & Hq' & Hr).
    assert (p' = p) as -> by congruence.
    rewrite (add_annotation_valid _ _ _ _ _ _ _ p Hq Hr) in Hadd.
    injection Hadd as <-.
    destruct (query_annotations_latest (db st) (Protein.id p)
                (Annotation.mk
                   (next_id (Annotation.id <$> annotations (db st)))
                   (Protein.id p) s e label color now))
      as (before & E & Hp); [done|done|].
    exists before. eexists. unfold view_protein. simpl.
    unfold query_protein in *. simpl. rewrite Hq. rewrite E.
    split_and!; done.
Qed.

Definition two_annotations : state :=
  snd (add_annotation
         (snd (add_annotation one_protein "0123456789" 0 1 "helix" "red" 300))
         "0123456789" 1 1 "site" "blue" 200).

Lemma view_protein_sorted_witness :
  ∃ rows,
    view_protein two_annotations "0123456789"
    = Ok (ProteinPage (Protein.mk 1 "0123456789" "0123456789.pdb" "AG" 100)
                      (Annotation.to_data <$> rows)
                      "/uploads/0123456789.pdb")
    ∧ StronglySorted created_le rows
    ∧ rows ≡ₚ filter (owned_by 1) (annotations (db two_annotations)).
Proof.
  apply (proj1 (view_protein_sorted two_annotations "0123456789"
                  (Protein.mk 1 "0123456789" "0123456789.pdb" "AG" 100)
                  eq_refl)).
Defined.

(** * Further properties of the extractor *)

Section Streams.

(** The keys of the records of a stream, in order. *)
Definition record_keys (content : string) : list (string * string) :=
  record_key <$> atom_records content.

(** A text that is empty or ends with a line feed: its last line is
    closed. *)
Definition terminated (content : string) : Prop :=
  content = EmptyString ∨ has_suffix content nl.

(** The same text with Windows line ends. *)
Fixpoint crlf (s : string) : string :=
  match s with
  | EmptyString => EmptyString
  | String c s' =>
      if Ascii.eqb c Py.LF then String Py.CR (String Py.LF (crlf s'))
      else String c (crlf s')
  end.

(** No carriage return in the text. *)
Definition unix_text (s : string) : Prop :=
  Py.CR ∉ String.list_ascii_of_string s.

Lemma append_assoc s t u : (s +:+ t) +:+ u = s +:+ (t +:+ u).
Proof. induction s as [|a s IH]; [done|]. by rewrite !append_cons, IH. Qed.

Lemma join_app l1 l2 : Py.join (l1 ++ l2) = Py.join l1 +:+ Py.join l2.
Proof.
  induction l1 as [|s l1 IH]; [done|].
  simpl. by rewrite !join_cons, IH, append_assoc.
Qed.

Lemma extract_loop_atoms lines seen seq :
  extract_loop (filter is_atom lines) seen seq = extract_loop lines seen seq.
Proof.
  revert seen seq. induction lines as [|line rest IH]; intros seen seq; [done|].
  destruct (decide (is_atom line)) as [Ha|Ha].
  - rewrite filter_cons_True by done. simpl. rewrite Ha. simpl.
    destruct (Py.index 21 line); simpl; [|done]. case_decide; apply IH.
  - rewrite filter_cons_False by done. simpl.
    destruct (Py.startswith line "ATOM") eqn:E; [done|]. simpl. apply IH.
Qed.

Lemma readlines_aux_app pre rest cur after_cr :
  (after_cr = true → cur = EmptyString) →
  Py.readlines_aux ((pre +:+ nl) +:+ rest) cur after_cr
  = Py.readlines_aux (pre +:+ nl) cur after_cr ++ Py.readlines rest.
Proof.
  revert cur after_cr. induction pre as [|a pre IH]; intros cur f Hf.
  - change ((EmptyString +:+ nl) +:+ rest) with (String Py.LF rest).
    change (EmptyString +:+ nl) with (String Py.LF EmptyString).
    simpl. destruct f; simpl.
    + rewrite Hf by done. done.
    + done.
  - rewrite !append_cons. simpl.
    destruct (Ascii.eqb a Py.LF); [destruct f|destruct (Ascii.eqb a Py.CR)];
      simpl; rewrite IH by done; done.
Qed.

Lemma readlines_app c1 c2 :
  terminated c1 →
  Py.readlines (c1 +:+ c2) = Py.readlines c1 ++ Py.readlines c2.
Proof.
  intros [->|[pre ->]]; [done|].
  unfold Py.readlines at 1 2. by apply readlines_aux_app.
Qed.

Lemma atom_records_app c1 c2 :
  terminated c1 →
  atom_records (c1 +:+ c2) = atom_records c1 ++ atom_records c2.
Proof.
  intros Ht. unfold atom_records. by rewrite readlines_app, filter_app.
Qed.

Lemma readlines_aux_crlf s cur :
  unix_text s →
  Py.readlines_aux (crlf s) cur false = Py.readlines_aux s cur false.
Proof.
  unfold unix_text. revert cur. induction s as [|a s IH]; intros cur Hs; [done|].
  simpl in Hs. apply not_elem_of_cons in Hs as [Ha Hs]. simpl.
  destruct (Ascii.eqb a Py.LF) eqn:E.
  - simpl. by rewrite IH.
  - simpl. rewrite E.
    destruct (Ascii.eqb a Py.CR) eqn:E'.
    + apply Ascii.eqb_eq in E'. congruence.
    + by apply IH.
Qed.

Lemma first_seen_app {A K} `{Countable K} (key : A → K) (l1 l2 : list A) :
  first_seen key (l1 ++ l2)
  = first_seen key l1
    ++ filter (λ y, key y ∉ key <$> l1) (first_seen key l2).
Proof.
  induction l1 as [|x l1 IH]; simpl.
  - rewrite filter_all; [done|].
    apply Forall_forall. intros y _. apply not_elem_of_nil.
  - f_equal. rewrite IH, filter_app, list_filter_filter. f_equal.
    apply list_filter_iff. intros y. rewrite not_elem_of_cons. tauto.
Qed.

End Streams.

(** A structure file with lines of other kinds around its three ATOM
    records. *)
Definition with_other_lines : string :=
  "HEADER    HYDROLASE" +:+ nl
  +:+ atom_line "ALA" "A" "   1" +:+ atom_line "ALA" "A" "   1"
  +:+ "HETATM  900  O   HOH A 101" +:+ nl
  +:+ atom_line "GLY" "A" "   2"
  +:+ "END" +:+ nl.

(** X1.  The extractor depends on the ATOM lines of the stream only: two
    streams with the same ATOM lines, in the same order, give the same
    result, be it a sequence or an error. *)
Theorem extract_sequence_atoms_only (c1 c2 : string) :
  atom_records c1 = atom_records c2 →
  extract_sequence c1 = extract_sequence c2.
Proof.
  intros E. unfold extract_sequence.
  rewrite <- (extract_loop_atoms (Py.readlines c1)).
  rewrite <- (extract_loop_atoms (Py.readlines c2)).
  unfold atom_records in E. by rewrite E.
Qed.

Lemma extract_sequence_atoms_only_witness :
  extract_sequence with_other_lines = extract_sequence three_atoms.
Proof.
  apply (extract_sequence_atoms_only with_other_lines three_atoms).
  vm_compute. reflexivity.
Defined.



(** X3.  When the extractor returns, the sequence is empty exactly when
    the stream has no ATOM line, and it is never longer than the number of
    ATOM lines. *)
Theorem extract_sequence_empty_iff (content s : string) :
  extract_sequence content = Ok s →
  (s = EmptyString ↔ atom_records content = [])
  ∧ (String.length s ≤ length (atom_records content))%nat.
Proof.
  intros Hs.
  assert (complete_records content) as Hc
    by (apply extract_sequence_returns; by exists s).
  rewrite extract_sequence_complete in Hs by done. injection Hs as <-.
  split.
  - split.
    + intros He. apply (f_equal String.length) in He.
      rewrite expected_sequence_length in He. simpl in He.
      unfold distinct_keys in He. apply size_empty_inv in He.
      destruct (atom_records content) as [|l ls]; [done|].
      exfalso.
      apply (not_elem_of_empty (C:=gset (string * string)) (record_key l)).
      apply He. simpl. apply elem_of_union_l. by apply elem_of_singleton.
    + intros He. unfold expected_sequence. by rewrite He.
  - unfold expected_sequence.
    rewrite join_length, length_fmap.
    + apply sublist_length, first_seen_sublist.
    + apply Forall_fmap, Forall_forall. intros l _. apply aa_of_length.
Qed.

Lemma extract_sequence_empty_iff_witness :
  ("AG" = EmptyString ↔ atom_records three_atoms = [])
  ∧ (String.length "AG" ≤ length (atom_records three_atoms))%nat.
Proof.
  apply (extract_sequence_empty_iff three_atoms "AG").
  vm_compute. reflexivity.
Defined.

(** X4.  Text added after a stream whose last line is closed only adds
    codes at the end: if the extractor returns on the longer stream, it
    returns on the first part, and that sequence is the beginning of the
    longer one. *)
Theorem extract_sequence_append (c1 c2 s : string) :
  terminated c1 →
  extract_sequence (c1 +:+ c2) = Ok s →
  ∃ s1 s2, extract_sequence c1 = Ok s1 ∧ s = s1 +:+ s2.
Proof.
  intros Ht Hs.
  assert (complete_records (c1 +:+ c2)) as Hc
    by (apply extract_sequence_returns; by exists s).
  rewrite extract_sequence_complete in Hs by done. injection Hs as <-.
  unfold complete_records in Hc. rewrite atom_records_app in Hc by done.
  apply Forall_app in Hc as [Hc1 _].
  exists (expected_sequence c1). eexists.
  split; [by apply extract_sequence_complete|].
  unfold expected_sequence.
  by rewrite atom_records_app, first_seen_app, fmap_app, join_app.
Qed.

Lemma extract_sequence_append_witness :
  ∃ s1 s2, extract_sequence (atom_line "ALA" "A" "   1") = Ok s1
           ∧ "AG" = s1 +:+ s2.
Proof.
  apply (extract_sequence_append (atom_line "ALA" "A" "   1")
           (atom_line "ALA" "A" "   1" +:+ atom_line "GLY" "A" "   2") "AG").
  - right. apply endswith_spec. vm_compute. reflexivity.
  - vm_compute. reflexivity.
Defined.

Lemma filter_none {A} (P : A → Prop) `{∀ x, Decision (P x)} (l : list A) :
  Forall (λ x, ¬ P x) l → filter P l = [].
Proof.
  induction 1 as [|x l Hx Hl IH]; [done|]. by rewrite filter_cons_False.
Qed.

(** X5.  Records whose keys have all been seen add nothing: after a
    stream whose last line is closed, further text with complete ATOM
    lines, all with keys of the first part, leaves the result of the first
    part as it is (a second model of the same residues, further atoms of
    the same residues). *)
Theorem extract_sequence_seen_keys (c1 c2 : string) :
  terminated c1 →
  complete_records c2 →
  (∀ k, k ∈ record_keys c2 → k ∈ record_keys c1) →
  extract_sequence (c1 +:+ c2) = extract_sequence c1.
Proof.
  intros Ht Hc2 Hk.
  destruct (decide (complete_records c1)) as [Hc1|Hc1].
  - rewrite !extract_sequence_complete; [|done|].
    + unfold expected_sequence.
      rewrite atom_records_app, first_seen_app by done.
      rewrite filter_none; [by rewrite app_nil_r|].
      apply Forall_forall. intros l Hl Hn. apply Hn, Hk.
      unfold record_keys. apply list_elem_of_fmap_2.
      eapply elem_of_sublist; [exact Hl|apply first_seen_sublist].
    + unfold complete_records. rewrite atom_records_app by done.
      by apply Forall_app.
  - rewrite !extract_sequence_truncated; [done|done|].
    unfold complete_records. rewrite atom_records_app by done.
    rewrite Forall_app. tauto.
Qed.

Lemma extract_sequence_seen_keys_witness :
  extract_sequence (three_atoms +:+ three_atoms) = extract_sequence three_atoms.
Proof.
  apply (extract_sequence_seen_keys three_atoms three_atoms).
  - right. apply endswith_spec. vm_compute. reflexivity.
  - apply (bool_decide_unpack _). vm_compute. exact I.
  - intros k Hk. exact Hk.
Defined.

(** X6.  Parts with no key in common are extracted one after the other,
    with nothing between them: after a stream whose last line is closed,
    the sequence of the whole is the sequence of the first part followed
    by the sequence of the second (two chains give one string). *)
Theorem extract_sequence_disjoint (c1 c2 s1 s2 : string) :
  terminated c1 →
  (∀ k, k ∈ record_keys c1 → k ∉ record_keys c2) →
  extract_sequence c1 = Ok s1 →
  extract_sequence c2 = Ok s2 →
  extract_sequence (c1 +:+ c2) = Ok (s1 +:+ s2).
Proof.
  intros Ht Hk H1 H2.
  assert (complete_records c1) as Hc1
    by (apply extract_sequence_returns; by exists s1).
  assert (complete_records c2) as Hc2
    by (apply extract_sequence_returns; by exists s2).
  rewrite extract_sequence_complete in H1, H2 by done.
  injection H1 as <-. injection H2 as <-.
  rewrite extract_sequence_complete.
  - unfold expected_sequence.
    rewrite atom_records_app, first_seen_app, fmap_app, join_app by done.
    rewrite filter_all; [done|].
    apply Forall_forall. intros l Hl Hin. apply (Hk _ Hin).
    unfold record_keys. apply list_elem_of_fmap_2.
    eapply elem_of_sublist; [exact Hl|apply first_seen_sublist].
  - unfold complete_records. rewrite atom_records_app by done.
    by apply Forall_app.
Qed.

Definition chain_b : string :=
  atom_line "SER" "B" "   1" +:+ atom_line "TRP" "B" "   2".

Lemma extract_sequence_disjoint_witness :
  extract_sequence (three_atoms +:+ chain_b) = Ok ("AG" +:+ "SW").
Proof.
  apply (extract_sequence_disjoint three_atoms chain_b "AG" "SW").
  - right. apply endswith_spec. vm_compute. reflexivity.
  - apply Forall_forall.
    apply (bool_decide_unpack _). vm_compute. exact I.
  - vm_compute. reflexivity.
  - vm_compute. reflexivity.
Defined.

(** X7.  The line ends do not matter: a text without carriage returns
    and the same text with every line feed replaced by carriage return and
    line feed give the same result. *)
Theorem extract_sequence_crlf (content : string) :
  unix_text content →
  extract_sequence (crlf content) = extract_sequence content.
Proof.
  intros Hu. unfold extract_sequence, Py.readlines.
  by rewrite readlines_aux_crlf.
Qed.

Lemma extract_sequence_crlf_witness :
  extract_sequence (crlf three_atoms) = extract_sequence three_atoms.
Proof.
  apply (extract_sequence_crlf three_atoms).
  apply (bool_decide_unpack _). vm_compute. exact I.
Defined.

(** X8.  The code X stands for an unknown residue name and for nothing
    else: a name gets X exactly when it is not a key of the table, and two
    names that get the same code other than X are the same name. *)
Theorem aa_of_placeholder_exact (n1 n2 : string) :
  (aa_of n1 = "X" ↔ RES3_TO_1 !! n1 = None)
  ∧ (aa_of n1 = aa_of n2 → aa_of n1 ≠ "X" → n1 = n2).
Proof.
  assert (∀ n v, RES3_TO_1 !! n = Some v →
                 (n, v) ∈ map_to_list RES3_TO_1) as Hin
    by (intros n v; apply elem_of_map_to_list).
  assert (Forall (λ nv, snd nv ≠ "X") (map_to_list RES3_TO_1)) as HX
    by (apply (bool_decide_unpack _); by vm_compute).
  assert (Forall (λ a, Forall (λ b, snd a = snd b → fst a = fst b)
                          (map_to_list RES3_TO_1))
                 (map_to_list RES3_TO_1)) as Hinj
    by (apply (bool_decide_unpack _); by vm_compute).
  rewrite Forall_forall in HX. rewrite Forall_forall in Hinj.
  split.
  - split; [|apply aa_of_unmapped].
    unfold aa_of. destruct (RES3_TO_1 !! n1) as [v|] eqn:E; [|done].
    simpl. intros ->. by apply Hin, HX in E.
  - unfold aa_of.
    destruct (RES3_TO_1 !! n1) as [v1|] eqn:E1; [|done].
    destruct (RES3_TO_1 !! n2) as [v2|] eqn:E2; simpl.
    + intros -> _. apply Hin in E1, E2.
      specialize (Hinj _ E1). rewrite Forall_forall in Hinj.
      by apply (Hinj _ E2).
    + intros -> _. by apply Hin, HX in E1.
Qed.

Lemma aa_of_placeholder_exact_witness : "GLY" = "GLY".
Proof.
  apply (proj2 (aa_of_placeholder_exact "GLY" "GLY")).
  - reflexivity.
  - vm_compute. discriminate.
Defined.

(** * Further properties of the store *)

(** ** Looking a protein up *)

Section Lookup.

Lemma query_protein_Some d slug p :
  query_protein d slug = Some p → p ∈ proteins d ∧ Protein.slug p = slug.
Proof.
  unfold query_protein. induction (proteins d) as [|q l IH]; simpl; [done|].
  case_bool_decide as E.
  - intros [= <-]. split; [apply list_elem_of_here|done].
  - intros [Hin Hs]%IH. split; [by apply list_elem_of_further|done].
Qed.

Lemma query_protein_None d slug :
  query_protein d slug = None ↔ slug ∉ Protein.slug <$> proteins d.
Proof.
  unfold query_protein. induction (proteins d) as [|q l IH]; simpl.
  - split; [intros _; apply not_elem_of_nil|done].
  - rewrite not_elem_of_cons. case_bool_decide as E.
    + split; [done|]. intros [Hne _]. by destruct Hne.
    + rewrite IH. split; [by intros ?; split|by intros [_ ?]].
Qed.

(** With unique slugs, the protein of a slug is the one found. *)
Lemma query_protein_elem d p :
  NoDup (Protein.slug <$> proteins d) → p ∈ proteins d →
  query_protein d (Protein.slug p) = Some p.
Proof.
  unfold query_protein. induction (proteins d) as [|q l IH]; simpl.
  - by intros _ ?%elem_of_nil.
  - intros [Hq Hl]%NoDup_cons [->|Hin]%elem_of_cons.
    + by rewrite bool_decide_eq_true_2.
    + rewrite bool_decide_eq_false_2; [by apply IH|].
      intros E. apply Hq. rewrite E. by apply list_elem_of_fmap_2.
Qed.

Lemma query_protein_new d p annots :
  Protein.slug p ∉ Protein.slug <$> proteins d →
  query_protein {| proteins := proteins d ++ [p]; annotations := annots |}
                (Protein.slug p) = Some p.
Proof.
  unfold query_protein. simpl. induction (proteins d) as [|q l IH]; simpl.
  - intros _. by rewrite bool_decide_eq_true_2.
  - intros [Hq Hl]%not_elem_of_cons.
    rewrite bool_decide_eq_false_2 by done. by apply IH.
Qed.

(** Rows with distinct keys: equal keys, equal rows. *)
Lemma NoDup_fmap_elem {A B} (f : A → B) (l : list A) x y :
  NoDup (f <$> l) → x ∈ l → y ∈ l → f x = f y → x = y.
Proof.
  induction l as [|z l IH]; simpl; [by intros _ ?%elem_of_nil|].
  intros [Hz Hl]%NoDup_cons [->|Hx]%elem_of_cons [->|Hy]%elem_of_cons E;
    [done| | |by apply IH].
  - destruct Hz. rewrite E. by apply list_elem_of_fmap_2.
  - destruct Hz. rewrite <- E. by apply list_elem_of_fmap_2.
Qed.

Lemma slice_prefix_length n s : (String.length (Py.slice 0 n s) ≤ n)%nat.
Proof.
  unfold Py.slice. replace (n - 0)%nat with n by lia.
  revert s. induction n as [|n IH]; intros [|a s]; simpl; try lia.
  specialize (IH s). lia.
Qed.

End Lookup.

(** ** What an upload does, case by case *)

(** The state with one more file. *)
Definition with_file (st : state) (name content : string) : state :=
  {| db := db st; uploads := <[name := content]> (uploads st) |}.

(** The row an upload inserts. *)
Definition new_protein (st : state) (slug sequence : string) (now : Z)
    : Protein.t :=
  Protein.mk (next_id (Protein.id <$> proteins (db st)))
             slug (slug +:+ ".pdb") sequence now.

(** The state after a successful upload. *)
Definition with_protein (st : state) (slug content : string) (now : Z)
    : state :=
  {| db := {| proteins := proteins (db st)
                ++ [new_protein st slug (expected_sequence content) now];
              annotations := annotations (db st) |};
     uploads := <[slug +:+ ".pdb" := content]> (uploads st) |}.

Inductive upload_outcome (st : state) (filename content uuid4_hex : string)
    (now : Z) : result response * state → Prop :=
  | upload_refused :
      ¬ has_suffix (Py.lower filename) ".pdb" →
      upload_outcome st filename content uuid4_hex now
        (Raise InvalidInput, st)
  | upload_unreadable :
      has_suffix (Py.lower filename) ".pdb" →
      ¬ complete_records content →
      upload_outcome st filename content uuid4_hex now
        (Raise IndexError,
         with_file st (Py.slice 0 10 uuid4_hex +:+ ".pdb") content)
  | upload_collision :
      has_suffix (Py.lower filename) ".pdb" →
      complete_records content →
      Py.slice 0 10 uuid4_hex ∈ Protein.slug <$> proteins (db st) →
      upload_outcome st filename content uuid4_hex now
        (Raise IntegrityError,
         with_file st (Py.slice 0 10 uuid4_hex +:+ ".pdb") content)
  | upload_stored :
      has_suffix (Py.lower filename) ".pdb" →
      complete_records content →
      Py.slice 0 10 uuid4_hex ∉ Protein.slug <$> proteins (db st) →
      upload_outcome st filename content uuid4_hex now
        (Ok (RedirectResponse ("/p/" +:+ Py.slice 0 10 uuid4_hex) 303),
         with_protein st (Py.slice 0 10 uuid4_hex) content now).

Lemma upload_pdb_outcome st filename content uuid4_hex now :
  upload_outcome st filename content uuid4_hex now
    (upload_pdb st filename content uuid4_hex now).
Proof.
  unfold upload_pdb.
  destruct (Py.endswith (Py.lower filename) ".pdb") eqn:E; simpl.
  - apply endswith_spec in E. rewrite extract_sequence_from_pdb_saved.
    destruct (decide (complete_records content)) as [Hc|Hc].
    + rewrite extract_sequence_complete by done.
      unfold insert_protein. case_decide.
      * by apply upload_collision.
      * by apply upload_stored.
    + rewrite extract_sequence_truncated by done.
      by apply upload_unreadable.
  - apply endswith_false in E. by apply upload_refused.
Qed.

(** ** The shape of the states the requests lead to *)

Record consistent (st : state) : Prop := {
  slugs_unique : NoDup (Protein.slug <$> proteins (db st));
  ids_unique : NoDup (Protein.id <$> proteins (db st));
  annotation_ids_unique : NoDup (Annotation.id <$> annotations (db st));
  annotations_owned :
    Forall (λ a, ∃ p, p ∈ proteins (db st)
                      ∧ Protein.id p = Annotation.protein_id a
                      ∧ in_range (Annotation.start_index a)
                                 (Annotation.end_index a) p)
           (annotations (db st));
  files_stored :
    Forall (λ p, Protein.filename p = Protein.slug p +:+ ".pdb"
                 ∧ (String.length (Protein.slug p) ≤ 10)%nat
                 ∧ is_Some (uploads st !! Protein.filename p))
           (proteins (db st))
}.

Section Consistent.

Lemma NoDup_snoc {A} (l : list A) x : NoDup l → x ∉ l → NoDup (l ++ [x]).
Proof.
  intros Hl Hx. apply NoDup_app. split_and!; [done| |apply NoDup_singleton].
  intros y Hy ->%list_elem_of_singleton. done.
Qed.

Lemma consistent_empty : consistent empty_state.
Proof. split; simpl; by constructor. Qed.

Lemma consistent_with_file st name content :
  consistent st → consistent (with_file st name content).
Proof.
  intros [H1 H2 H3 H4 H5]. split; simpl; try done.
  eapply Forall_impl; [exact H5|]. simpl. intros p (Hf & Hl & Hs).
  split_and!; [done|done|].
  apply lookup_insert_is_Some. destruct (decide (name = Protein.filename p));
    auto.
Qed.

Lemma consistent_with_protein st slug content now :
  consistent st →
  slug ∉ Protein.slug <$> proteins (db st) →
  (String.length slug ≤ 10)%nat →
  consistent (with_protein st slug content now).
Proof.
  intros [H1 H2 H3 H4 H5] Hs Hl. split; simpl.
  - rewrite fmap_app. by apply NoDup_snoc.
  - rewrite fmap_app. apply NoDup_snoc; [done|]. apply next_id_fresh.
  - done.
  - eapply Forall_impl; [exact H4|]. simpl. intros a (p & Hp & Hr).
    exists p. split; [|done]. apply elem_of_app. by left.
  - apply Forall_app. split.
    + eapply Forall_impl; [exact H5|]. simpl. intros p (Hf & Hl' & Hsome).
      split_and!; [done|done|].
      apply lookup_insert_is_Some.
      destruct (decide (slug +:+ ".pdb" = Protein.filename p)); auto.
    + apply Forall_cons. split; [|by apply Forall_nil]. simpl.
      split_and!; [done|done|]. rewrite lookup_insert_eq. by eexists.
Qed.

Lemma upload_pdb_consistent st filename content uuid4_hex now :
  consistent st →
  consistent (snd (upload_pdb st filename content uuid4_hex now)).
Proof.
  intros Hst.
  destruct (upload_pdb_outcome st filename content uuid4_hex now); simpl;
    auto using consistent_with_file.
  apply consistent_with_protein; [done|done|apply slice_prefix_length].
Qed.

Lemma add_annotation_consistent st slug s e label color now :
  consistent st →
  consistent (snd (add_annotation st slug s e label color now)).
Proof.
  intros Hst. unfold add_annotation.
  destruct (query_protein (db st) slug) as [p|] eqn:Hq; [|done].
  destruct (validate_range _ s e) as [[]|] eqn:Hv; [|done].
  apply validate_range_ok_iff in Hv. apply query_protein_Some in Hq as [Hp _].
  destruct Hst as [H1 H2 H3 H4 H5]. split; simpl; try done.
  - rewrite fmap_app. apply NoDup_snoc; [done|]. apply next_id_fresh.
  - apply Forall_app. split; [done|].
    apply Forall_cons. split; [|by apply Forall_nil]. by exists p.
Qed.

Lemma handle_consistent st r : consistent st → consistent (snd (handle st r)).
Proof.
  destruct r; simpl;
    auto using upload_pdb_consistent, add_annotation_consistent.
Qed.

Lemma reachable_consistent st : reachable st → consistent st.
Proof.
  induction 1; auto using consistent_empty, handle_consistent.
Qed.

End Consistent.

(** ** Upload *)





(** X11.  The redirect of a successful upload leads somewhere: in a state
    the requests can lead to, the view of the new slug right after the
    upload shows the new protein, with the sequence extracted from the
    file, the link to the stored file, and no annotation. *)
Theorem upload_then_view (st st' : state)
    (filename content uuid4_hex : string) (now : Z) (resp : response) :
  reachable st →
  upload_pdb st filename content uuid4_hex now = (Ok resp, st') →
  ∃ sequence,
    extract_sequence content = Ok sequence
    ∧ resp = RedirectResponse ("/p/" +:+ Py.slice 0 10 uuid4_hex) 303
    ∧ view_protein st' (Py.slice 0 10 uuid4_hex)
      = Ok (ProteinPage
              (new_protein st (Py.slice 0 10 uuid4_hex) sequence now) []
              ("/uploads/" +:+ Py.slice 0 10 uuid4_hex +:+ ".pdb")).
Proof.
  intros Hr%reachable_consistent E.
  destruct (upload_pdb_outcome st filename content uuid4_hex now)
    as [| | |Hn Hc Hs]; try done.
  injection E as <- <-. exists (expected_sequence content).
  split_and!; [by apply extract_sequence_complete|done|].
  unfold view_protein, with_protein. simpl.
  rewrite (query_protein_new (db st)
             (new_protein st (Py.slice 0 10 uuid4_hex)
                          (expected_sequence content) now)) by done.
  simpl. unfold query_annotations. simpl. rewrite filter_none; [done|].
  eapply Forall_impl; [apply (annotations_owned _ Hr)|]. simpl.
  intros a (p & Hp & Hid & _) Ha. unfold owned_by in Ha.
  apply (next_id_fresh (Protein.id <$> proteins (db st))).
  rewrite <- Ha, <- Hid. by apply list_elem_of_fmap_2.
Qed.

Lemma reachable_one_protein : reachable one_protein.
Proof.
  exact (reachable_step empty_state (Upload "1abc.pdb" three_atoms hex0 100)
           reachable_empty).
Qed.

Lemma upload_then_view_witness :
  ∃ sequence,
    extract_sequence chain_b = Ok sequence
    ∧ RedirectResponse "/p/aaaaaaaaaa" 303
      = RedirectResponse
          ("/p/" +:+ Py.slice 0 10 "aaaaaaaaaabbbbbbbbbbccccccccccdd") 303
    ∧ view_protein (with_protein one_protein "aaaaaaaaaa" chain_b 150)
        (Py.slice 0 10 "aaaaaaaaaabbbbbbbbbbccccccccccdd")
      = Ok (ProteinPage
              (new_protein one_protein
                 (Py.slice 0 10 "aaaaaaaaaabbbbbbbbbbccccccccccdd")
                 sequence 150) []
              ("/uploads/"
               +:+ Py.slice 0 10 "aaaaaaaaaabbbbbbbbbbccccccccccdd"
               +:+ ".pdb")).
Proof.
  apply (upload_then_view one_protein
           (with_protein one_protein "aaaaaaaaaa" chain_b 150)
           "2xyz.pdb" chain_b "aaaaaaaaaabbbbbbbbbbccccccccccdd" 150
           (RedirectResponse "/p/aaaaaaaaaa" 303)).
  - apply reachable_one_protein.
  - vm_compute. reflexivity.
Defined.

(** ** View *)

(** The rows behind an annotation list of a page. *)
Definition data_in_range (p : Protein.t) (d : Annotation.data) : Prop :=
  0 ≤ Annotation.d_start_index d
  ∧ Annotation.d_start_index d ≤ Annotation.d_end_index d
  ∧ Annotation.d_end_index d < Z.of_nat (String.length (Protein.sequence p)).

(** X12.  The view fails exactly when no stored protein has the slug, and
    then with the not-found error; when it returns, it returns the page of
    a stored protein with that slug, with the link to the file of that
    protein. *)
Theorem view_protein_not_found (st : state) (slug : string) :
  (view_protein st slug = Raise NotFound
   ↔ slug ∉ Protein.slug <$> proteins (db st))
  ∧ (∀ e, view_protein st slug = Raise e → e = NotFound)
  ∧ (∀ resp, view_protein st slug = Ok resp →
       ∃ p anns, resp = ProteinPage p anns
                          ("/uploads/" +:+ Protein.filename p)
                 ∧ p ∈ proteins (db st) ∧ Protein.slug p = slug).
Proof.
  unfold view_protein. rewrite <- query_protein_None.
  destruct (query_protein (db st) slug) as [p|] eqn:Hq.
  - apply query_protein_Some in Hq as [Hp Hs].
    split_and!; [done|done|]. intros resp [= <-]. eauto.
  - split_and!; [done| |done]. by intros e [= <-].
Qed.

Lemma view_protein_not_found_witness :
  view_protein one_protein "ffffffffff" = Raise NotFound.
Proof.
  apply (proj1 (view_protein_not_found one_protein "ffffffffff")).
  apply (bool_decide_unpack _). vm_compute. exact I.
Defined.

(** X13.  In every state the requests can lead to, every annotation a
    page shows lies within the sequence the page shows:
    [0 <= start_index <= end_index < len(sequence)]. *)
Theorem view_protein_in_range (st : state) (slug : string) (p : Protein.t)
    (anns : list Annotation.data) (pdb_url : string) :
  reachable st →
  view_protein st slug = Ok (ProteinPage p anns pdb_url) →
  Forall (data_in_range p) anns.
Proof.
  intros Hr%reachable_consistent. unfold view_protein.
  destruct (query_protein (db st) slug) as [q|] eqn:Hq; [|done].
  intros [= -> <- _]. apply query_protein_Some in Hq as [Hp _].
  apply Forall_fmap, Forall_forall. intros a Ha.
  rewrite query_annotations_perm in Ha.
  apply list_elem_of_filter in Ha as [Hown Ha].
  pose proof (annotations_owned _ Hr) as Hall.
  rewrite Forall_forall in Hall.
  destruct (Hall a Ha) as (p' & Hp' & Hid & Hrange).
  assert (p' = p) as ->.
  { apply (NoDup_fmap_elem Protein.id (proteins (db st))); try done.
    - apply (ids_unique _ Hr).
    - unfold owned_by in Hown. congruence. }
  exact Hrange.
Qed.

Lemma reachable_two_annotations : reachable two_annotations.
Proof.
  exact (reachable_step _ (AddAnnotation "0123456789" 1 1 "site" "blue" 200)
           (reachable_step _ (AddAnnotation "0123456789" 0 1 "helix" "red" 300)
              reachable_one_protein)).
Qed.

Lemma view_protein_in_range_witness :
  Forall (data_in_range (Protein.mk 1 "0123456789" "0123456789.pdb" "AG" 100))
         [Annotation.mk_data 2 1 1 "site" "blue";
          Annotation.mk_data 1 0 1 "helix" "red"].
Proof.
  apply (view_protein_in_range two_annotations "0123456789" _ _
           "/uploads/0123456789.pdb").
  - apply reachable_two_annotations.
  - vm_compute. reflexivity.
Defined.

(** X14.  In every state the requests can lead to, the file a page links
    to is there: the link is [/uploads/] followed by the slug and [.pdb],
    a file of that name is stored, and the slug has at most ten
    characters. *)
Theorem view_protein_file_stored (st : state) (slug : string) (p : Protein.t)
    (anns : list Annotation.data) (pdb_url : string) :
  reachable st →
  view_protein st slug = Ok (ProteinPage p anns pdb_url) →
  pdb_url = "/uploads/" +:+ slug +:+ ".pdb"
  ∧ is_Some (uploads st !! (slug +:+ ".pdb"))
  ∧ (String.length slug ≤ 10)%nat.
Proof.
  intros Hr%reachable_consistent. unfold view_protein.
  destruct (query_protein (db st) slug) as [q|] eqn:Hq; [|done].
  intros [= -> _ <-]. apply query_protein_Some in Hq as [Hp <-].
  pose proof (files_stored _ Hr) as Hall. rewrite Forall_forall in Hall.
  destruct (Hall p Hp) as (Hf & Hl & Hs). rewrite Hf in Hs |- *. done.
Qed.

Lemma view_protein_file_stored_witness :
  "/uploads/0123456789.pdb" = "/uploads/" +:+ "0123456789" +:+ ".pdb"
  ∧ is_Some (uploads two_annotations !! ("0123456789" +:+ ".pdb"))
  ∧ (String.length "0123456789" ≤ 10)%nat.
Proof.
  apply (view_protein_file_stored two_annotations "0123456789"
           (Protein.mk 1 "0123456789" "0123456789.pdb" "AG" 100)
           [Annotation.mk_data 2 1 1 "site" "blue";
            Annotation.mk_data 1 0 1 "helix" "red"]).
  - apply reachable_two_annotations.
  - vm_compute. reflexivity.
Defined.

(** ** Annotations and the other proteins *)

(** X15.  In every state the requests can lead to, an annotation request
    for one slug, whatever its outcome, leaves the view of every other
    slug as it was. *)
Theorem add_annotation_other_views (st : state) (slug slug' : string)
    (start_index end_index : Z) (label color : string) (now : Z) :
  reachable st →
  slug' ≠ slug →
  view_protein
    (snd (add_annotation st slug start_index end_index label color now))
    slug'
  = view_protein st slug'.
Proof.
  intros Hr%reachable_consistent Hne. unfold add_annotation.
  destruct (query_protein (db st) slug) as [p|] eqn:Hq; [|done].
  destruct (validate_range _ _ _) as [[]|]; [|done]. simpl.
  unfold view_protein. simpl.
  change (query_protein _ slug') with (query_protein (db st) slug').
  destruct (query_protein (db st) slug') as [q|] eqn:Hq'; [|done].
  f_equal. f_equal. f_equal. unfold query_annotations. simpl.
  rewrite filter_app, filter_cons_False, filter_nil, app_nil_r; [done|].
  unfold owned_by. simpl. intros Hid.
  apply (query_protein_Some (db st)) in Hq as [Hp Hs].
  apply (query_protein_Some (db st)) in Hq' as [Hp' Hs'].
  assert (p = q) as ->; [|congruence].
  apply (NoDup_fmap_elem Protein.id (proteins (db st))); try done.
  apply (ids_unique _ Hr).
Qed.

Lemma add_annotation_other_views_witness :
  view_protein
    (snd (add_annotation (with_protein one_protein "aaaaaaaaaa" chain_b 150)
            "aaaaaaaaaa" 0 1 "sheet" "green" 400))
    "0123456789"
  = view_protein (with_protein one_protein "aaaaaaaaaa" chain_b 150)
      "0123456789".
Proof.
  apply (add_annotation_other_views
           (with_protein one_protein "aaaaaaaaaa" chain_b 150)
           "aaaaaaaaaa" "0123456789" 0 1 "sheet" "green" 400).
  - exact (reachable_step one_protein
             (Upload "2xyz.pdb" chain_b "aaaaaaaaaabbbbbbbbbbccccccccccdd" 150)
             reachable_one_protein).
  - discriminate.
Defined.

(** X16.  Whenever an annotation request succeeds, the next view of that
    slug shows what the view showed before and the new annotation, with
    the fields of the request: one entry more, none lost. *)
Theorem add_annotation_then_view (st st' : state) (slug : string)
    (start_index end_index : Z) (label color : string) (now : Z) :
  add_annotation st slug start_index end_index label color now
  = (Ok StatusOk, st') →
  ∃ p before after new_id,
    view_protein st slug
    = Ok (ProteinPage p before ("/uploads/" +:+ Protein.filename p))
    ∧ view_protein st' slug
      = Ok (ProteinPage p after ("/uploads/" +:+ Protein.filename p))
    ∧ after ≡ₚ before
               ++ [Annotation.mk_data new_id start_index end_index
                                      label color]
    ∧ new_id ∉ Annotation.id <$> annotations (db st).
Proof.
  intros Hadd.
  destruct (add_annotation_ok_inv _ _ _ _ _ _ _ _ Hadd) as (p & Hq & Hr).
  rewrite (add_annotation_valid _ _ _ _ _ _ _ p Hq Hr) in Hadd.
  injection Hadd as <-.
  exists p. eexists. eexists.
  exists (next_id (Annotation.id <$> annotations (db st))).
  unfold view_protein. unfold query_protein in *. simpl. rewrite Hq.
  split_and!; [done|done| |apply next_id_fresh].
  rewrite !query_annotations_perm. simpl.
  rewrite filter_app, filter_cons_True by done.
  by rewrite fmap_app.
Qed.

Lemma add_annotation_then_view_witness :
  ∃ p before after new_id,
    view_protein one_protein "0123456789"
    = Ok (ProteinPage p before ("/uploads/" +:+ Protein.filename p))
    ∧ view_protein
        (snd (add_annotation one_protein "0123456789" 0 1 "helix" "red" 300))
        "0123456789"
      = Ok (ProteinPage p after ("/uploads/" +:+ Protein.filename p))
    ∧ after ≡ₚ before ++ [Annotation.mk_data new_id 0 1 "helix" "red"]
    ∧ new_id ∉ Annotation.id <$> annotations (db one_protein).
Proof.
  apply (add_annotation_then_view one_protein
           (snd (add_annotation one_protein "0123456789" 0 1 "helix" "red" 300))
           "0123456789" 0 1 "helix" "red" 300).
  vm_compute. reflexivity.
Defined.

(** ** All requests *)

(** X17.  No request deletes or changes a row, and no request deletes a
    file: after any request the two tables are the tables of before with
    at most one row added at the end, in one of them, and every file name
    that was stored still is. *)
Theorem handle_only_appends (st : state) (r : request) :
  ∃ ps anns,
    proteins (db (snd (handle st r))) = proteins (db st) ++ ps
    ∧ annotations (db (snd (handle st r))) = annotations (db st) ++ anns
    ∧ (length ps + length anns ≤ 1)%nat
    ∧ dom (uploads st) ⊆ dom (uploads (snd (handle st r))).
Proof.
  assert (∀ name content,
            dom (uploads st) ⊆ dom (<[name := content]> (uploads st)))
    as Hdom by (intros; rewrite dom_insert; apply union_subseteq_r).
  destruct r as [filename content uuid4_hex now|slug|slug s e label color now];
    simpl.
  - destruct (upload_pdb_outcome st filename content uuid4_hex now); simpl.
    + exists [], []. rewrite !app_nil_r. split_and!; [done|done|simpl; lia|done].
    + exists [], []. rewrite !app_nil_r. split_and!; [done|done|simpl; lia|done].
    + exists [], []. rewrite !app_nil_r. split_and!; [done|done|simpl; lia|done].
    + eexists [_], []. rewrite !app_nil_r.
      split_and!; [done|done|simpl; lia|done].
  - exists [], []. rewrite !app_nil_r. split_and!; [done|done|simpl; lia|done].
  - unfold add_annotation.
    destruct (query_protein (db st) slug) as [p|].
    + destruct (validate_range _ _ _) as [[]|]; simpl.
      * eexists [], [_]. rewrite !app_nil_r.
        split_and!; [done|done|simpl; lia|done].
      * exists [], []. rewrite !app_nil_r.
        split_and!; [done|done|simpl; lia|done].
    + exists [], []. rewrite !app_nil_r.
      split_and!; [done|done|simpl; lia|done].
Qed.

(** X18.  In every state the requests can lead to, no two proteins share
    a slug or an id, no two annotations share an id, and looking up the
    slug of a stored protein finds that protein. *)
Theorem reachable_unique (st : state) :
  reachable st →
  NoDup (Protein.slug <$> proteins (db st))
  ∧ NoDup (Protein.id <$> proteins (db st))
  ∧ NoDup (Annotation.id <$> annotations (db st))
  ∧ (∀ p, p ∈ proteins (db st) →
          query_protein (db st) (Protein.slug p) = Some p).
Proof.
  intros [H1 H2 H3 _ _]%reachable_consistent.
  split_and!; try done. intros p Hp. by apply query_protein_elem.
Qed.

Lemma reachable_unique_witness :
  NoDup (Protein.slug <$> proteins (db two_annotations))
  ∧ NoDup (Protein.id <$> proteins (db two_annotations))
  ∧ NoDup (Annotation.id <$> annotations (db two_annotations))
  ∧ (∀ p, p ∈ proteins (db two_annotations) →
          query_protein (db two_annotations) (Protein.slug p) = Some p).
Proof.
  apply (reachable_unique two_annotations). apply reachable_two_annotations.
Defined.

(** X19.  In every state the requests can lead to, every stored
    annotation belongs to exactly one stored protein, and its range lies
    within the sequence of that protein. *)
Theorem reachable_annotations_owned (st : state) (a : Annotation.t) :
  reachable st →
  a ∈ annotations (db st) →
  ∃ p, (p ∈ proteins (db st)
        ∧ Protein.id p = Annotation.protein_id a
        ∧ in_range (Annotation.start_index a) (Annotation.end_index a) p)
       ∧ (∀ q, q ∈ proteins (db st) →
               Protein.id q = Annotation.protein_id a → q = p).
Proof.
  intros Hr%reachable_consistent Ha.
  pose proof (annotations_owned _ Hr) as Hall. rewrite Forall_forall in Hall.
  destruct (Hall a Ha) as (p & Hp & Hid & Hrange).
  exists p. split; [done|]. intros q Hq Hid'.
  apply (NoDup_fmap_elem Protein.id (proteins (db st))); try done.
  - apply (ids_unique _ Hr).
  - congruence.
Qed.

Lemma reachable_annotations_owned_witness :
  ∃ p, (p ∈ proteins (db two_annotations)
        ∧ Protein.id p = 1
        ∧ in_range 0 1 p)
       ∧ (∀ q, q ∈ proteins (db two_annotations) → Protein.id q = 1 → q = p).
Proof.
  apply (reachable_annotations_owned two_annotations
           (Annotation.mk 1 1 0 1 "helix" "red" 300)).
  - apply reachable_two_annotations.
  - vm_compute. apply list_elem_of_here.
Defined.

(** ** What stays as it is *)

Section Permanence.

Lemma handle_only_appends_aux st r :
  ∃ ps, proteins (db (snd (handle st r))) = proteins (db st) ++ ps.
Proof.
  destruct r as [filename content uuid4_hex now|slug|slug s e label color now];
    simpl.
  - destruct (upload_pdb_outcome st filename content uuid4_hex now); simpl;
      try (exists []; by rewrite app_nil_r). by eexists.
  - exists []. by rewrite app_nil_r.
  - rewrite add_annotation_proteins. exists []. by rewrite app_nil_r.
Qed.

Lemma find_app_Some {A} (f : A → bool) (l k : list A) x :
  find f l = Some x → find f (l ++ k) = Some x.
Proof.
  induction l as [|y l IH]; simpl; [done|]. by destruct (f y).
Qed.

Lemma find_app_None {A} (f : A → bool) (l k : list A) :
  find f l = None → find f (l ++ k) = find f k.
Proof.
  induction l as [|y l IH]; simpl; [done|]. by destruct (f y).
Qed.

Lemma handle_query_protein st r slug p :
  query_protein (db st) slug = Some p →
  query_protein (db (snd (handle st r))) slug = Some p.
Proof.
  intros Hq. destruct (handle_only_appends_aux st r) as (ps & E).
  unfold query_protein in *. rewrite E. by apply find_app_Some.
Qed.

End Permanence.

Lemma handle_annotations_append st r :
  ∃ anns, annotations (db (snd (handle st r))) = annotations (db st) ++ anns.
Proof.
  destruct r as [filename content uuid4_hex now|slug|slug s e label color now];
    simpl.
  - destruct (upload_pdb_outcome st filename content uuid4_hex now); simpl;
      exists []; by rewrite app_nil_r.
  - exists []. by rewrite app_nil_r.
  - unfold add_annotation. destruct (query_protein (db st) slug) as [p|].
    + destruct (validate_range _ _ _) as [[]|]; simpl;
        [by eexists|exists []; by rewrite app_nil_r].
    + exists []. by rewrite app_nil_r.
Qed.

(** X20.  A page, once there, stays: if the view of a slug shows a
    protein, then after any request the view of that slug shows the same
    protein (same id, sequence and file) with the same link, and every
    annotation it showed, possibly with more. *)
Theorem view_protein_permanent (st : state) (r : request) (slug : string)
    (p : Protein.t) (anns : list Annotation.data) (pdb_url : string) :
  view_protein st slug = Ok (ProteinPage p anns pdb_url) →
  ∃ anns' more,
    view_protein (snd (handle st r)) slug = Ok (ProteinPage p anns' pdb_url)
    ∧ anns' ≡ₚ anns ++ more.
Proof.
  unfold view_protein.
  destruct (query_protein (db st) slug) as [q|] eqn:Hq; [|done].
  intros [= -> <- <-].
  rewrite (handle_query_protein st r slug p Hq).
  destruct (handle_annotations_append st r) as (extra & E).
  eexists. exists (Annotation.to_data <$> filter (owned_by (Protein.id p)) extra).
  split; [done|].
  rewrite !query_annotations_perm, E, filter_app. by rewrite fmap_app.
Qed.

Lemma view_protein_permanent_witness :
  ∃ anns' more,
    view_protein
      (snd (handle one_protein
              (AddAnnotation "0123456789" 0 1 "helix" "red" 300)))
      "0123456789"
    = Ok (ProteinPage (Protein.mk 1 "0123456789" "0123456789.pdb" "AG" 100)
                      anns' "/uploads/0123456789.pdb")
    ∧ anns' ≡ₚ [] ++ more.
Proof.
  apply (view_protein_permanent one_protein
           (AddAnnotation "0123456789" 0 1 "helix" "red" 300) "0123456789").
  vm_compute. reflexivity.
Defined.

(** X21.  Nothing keeps two annotations apart: a request that succeeded
    succeeds again when it is repeated, at any time, and the table then
    has two rows more than at the start. *)
Theorem add_annotation_repeat (st st' : state) (slug : string)
    (start_index end_index : Z) (label color : string) (now now' : Z) :
  add_annotation st slug start_index end_index label color now
  = (Ok StatusOk, st') →
  ∃ st'',
    add_annotation st' slug start_index end_index label color now'
    = (Ok StatusOk, st'')
    ∧ length (annotations (db st''))
      = (length (annotations (db st)) + 2)%nat.
Proof.
  intros Hadd.
  destruct (add_annotation_ok_inv _ _ _ _ _ _ _ _ Hadd) as (p & Hq & Hr).
  rewrite (add_annotation_valid _ _ _ _ _ _ _ p Hq Hr) in Hadd.
  injection Hadd as <-. eexists. split.
  - by apply (add_annotation_valid _ _ _ _ _ _ _ p).
  - simpl. rewrite !length_app. simpl. lia.
Qed.

Lemma add_annotation_repeat_witness :
  ∃ st'',
    add_annotation
      (snd (add_annotation one_protein "0123456789" 0 1 "helix" "red" 300))
      "0123456789" 0 1 "helix" "red" 301
    = (Ok StatusOk, st'')
    ∧ length (annotations (db st''))
      = (length (annotations (db one_protein)) + 2)%nat.
Proof.
  apply (add_annotation_repeat one_protein
           (snd (add_annotation one_protein "0123456789" 0 1 "helix" "red" 300))
           "0123456789" 0 1 "helix" "red" 300 301).
  vm_compute. reflexivity.
Defined.

(** X22.  An upload, whatever its outcome, leaves the view of every slug
    other than its own as it was. *)
Theorem upload_pdb_other_views (st : state)
    (filename content uuid4_hex slug' : string) (now : Z) :
  slug' ≠ Py.slice 0 10 uuid4_hex →
  view_protein (snd (upload_pdb st filename content uuid4_hex now)) slug'
  = view_protein st slug'.
Proof.
  intros Hne.
  destruct (upload_pdb_outcome st filename content uuid4_hex now); simpl;
    try done.
  unfold view_protein, with_protein, query_protein. simpl.
  destruct (find _ (proteins (db st))) as [q|] eqn:Hq.
  - by rewrite (find_app_Some _ _ _ _ Hq).
  - rewrite (find_app_None _ _ _ Hq). simpl.
    by rewrite bool_decide_eq_false_2.
Qed.

Lemma upload_pdb_other_views_witness :
  view_protein
    (snd (upload_pdb one_protein "2xyz.pdb" chain_b
            "aaaaaaaaaabbbbbbbbbbccccccccccdd" 150))
    "0123456789"
  = view_protein one_protein "0123456789".
Proof.
  apply (upload_pdb_other_views one_protein "2xyz.pdb" chain_b
           "aaaaaaaaaabbbbbbbbbbccccccccccdd" "0123456789" 150).
  vm_compute. discriminate.
Defined.
